(** * packetloggeapi: framing reader, packet parser and connection registry

    A shallow embedding of [packetloggeapi.py].  Python values are modelled
    as follows.

    - A [str] is the list of its Unicode code points ([N]); a [bytes] object
      is a list of [byte].
    - The built-ins the module calls on strings ([str.strip], [str.split],
      [int], the [windows-1252] codec) are modelled in [Module Py] from the
      behaviour of CPython 3.11 (Unicode 14.0.0).
    - The socket is a script of what [recv] is going to meet; the class
      dictionary [__instances] is a [gmap].
    - Exceptions are values of [exn]; a method threads the state of its
      object explicitly and returns a [result].  The one loop of the module
      that need not end, lines 49-50, runs on fuel. *)

From Stdlib Require Import NArith ZArith List Bool Lia.
From Stdlib.Strings Require Import Ascii String Byte.
From stdpp Require Import gmap.
Import ListNotations.

Local Open Scope N_scope.

(** Exceptions the module can raise or let through. *)
Inductive exn : Type :=
| StopIteration
| OSError
| UnicodeDecodeError
| UnicodeEncodeError
| ValueError
| TypeError
| KeyError.

(** The value of a Python expression that may raise. *)
Inductive res (A : Type) : Type :=
| Ok (a : A)
| Exc (e : exn).
Arguments Ok {A} a.
Arguments Exc {A} e.

(** A Python [str]: its code points, in order. *)
Definition pystr : Type := list N.

(** A literal of the development, given as a Rocq string of ASCII
    characters. *)
Definition lit (s : string) : pystr := map N_of_ascii (list_ascii_of_string s).

Module Py.

(** ** Characters *)

(** [str.isspace] on one character (Unicode 14.0.0). *)
Definition isspace (c : N) : bool :=
  ((0x09 <=? c) && (c <=? 0x0d))
  || ((0x1c <=? c) && (c <=? 0x1f))
  || (c =? 0x20) || (c =? 0x85) || (c =? 0xa0) || (c =? 0x1680)
  || ((0x2000 <=? c) && (c <=? 0x200a))
  || (c =? 0x2028) || (c =? 0x2029) || (c =? 0x202f) || (c =? 0x205f)
  || (c =? 0x3000).

(** [Py_ISSPACE], the C-level test [int] uses after its argument has been
    brought to ASCII. *)
Definition c_isspace (c : N) : bool :=
  ((0x09 <=? c) && (c <=? 0x0d)) || (c =? 0x20).

(** Code points of the digit zero of every decimal-digit block
    (category Nd); the digits 0 to 9 of a block are consecutive. *)
Definition decimal_zeros : list N :=
  [ 0x30; 0x660; 0x6f0; 0x7c0; 0x966; 0x9e6; 0xa66; 0xae6; 0xb66; 0xbe6;
    0xc66; 0xce6; 0xd66; 0xde6; 0xe50; 0xed0; 0xf20; 0x1040; 0x1090;
    0x17e0; 0x1810; 0x1946; 0x19d0; 0x1a80; 0x1a90; 0x1b50; 0x1bb0;
    0x1c40; 0x1c50; 0xa620; 0xa8d0; 0xa900; 0xa9d0; 0xa9f0; 0xaa50;
    0xabf0; 0xff10; 0x104a0; 0x10d30; 0x11066; 0x110f0; 0x11136; 0x111d0;
    0x112f0; 0x11450; 0x114d0; 0x11650; 0x116c0; 0x11730; 0x118e0;
    0x11950; 0x11c50; 0x11d50; 0x11da0; 0x16a60; 0x16ac0; 0x16b50;
    0x1d7ce; 0x1d7d8; 0x1d7e2; 0x1d7ec; 0x1d7f6; 0x1e140; 0x1e2f0;
    0x1e950; 0x1fbf0 ].

(** [Py_UNICODE_TODECIMAL]. *)
Definition to_decimal (c : N) : option N :=
  match List.find (fun z => (z <=? c) && (c <? z + 10)) decimal_zeros with
  | Some z => Some (c - z)
  | None => None
  end.

(** ** [str.strip()] *)

Fixpoint drop_while (p : N -> bool) (s : pystr) : pystr :=
  match s with
  | [] => []
  | c :: s' => if p c then drop_while p s' else s
  end.

Definition lstrip (s : pystr) : pystr := drop_while isspace s.
Definition rstrip (s : pystr) : pystr := rev (drop_while isspace (rev s)).
Definition strip (s : pystr) : pystr := rstrip (lstrip s).

(** ** [sep in s] and [s.split(sep, maxsplit)] for a one-character [sep] *)

Definition contains (sep : N) (s : pystr) : bool := existsb (N.eqb sep) s.

(** The text before and after the first [sep], when there is one. *)
Fixpoint partition (sep : N) (s : pystr) : option (pystr * pystr) :=
  match s with
  | [] => None
  | c :: s' =>
      if c =? sep then Some ([], s')
      else match partition sep s' with
           | Some (l, r) => Some (c :: l, r)
           | None => None
           end
  end.

Fixpoint split (sep : N) (maxsplit : nat) (s : pystr) : list pystr :=
  match maxsplit with
  | O => [s]
  | S k =>
      match partition sep s with
      | None => [s]
      | Some (l, r) => l :: split sep k r
      end
  end.

(** ** [int(s)] for a [str] argument, base 10 *)

(** [_PyUnicode_TransformDecimalAndSpaceToASCII]: an ASCII string is
    returned as it is; otherwise spaces become [' '], decimal digits
    their ASCII digit, and the first other character above 126 becomes
    ['?'] and ends the result. *)
Fixpoint transform_chars (s : pystr) : pystr :=
  match s with
  | [] => []
  | c :: s' =>
      if c <? 127 then c :: transform_chars s'
      else if isspace c then 0x20 :: transform_chars s'
      else match to_decimal c with
           | Some d => (0x30 + d) :: transform_chars s'
           | None => [0x3f]
           end
  end.

Definition transform (s : pystr) : pystr :=
  if forallb (fun c => c <? 128) s then s else transform_chars s.

(** The digit scan of [long_from_string_base]: digits and single
    underscores between them.  Returns the value, the number of digits and
    the unread rest; [None] is a syntax error. *)
Fixpoint scan_digits (s : pystr) (prev_underscore : bool) (acc : N)
         (digits : nat) : option (N * nat * pystr) :=
  match s with
  | [] => if prev_underscore then None else Some (acc, digits, [])
  | c :: s' =>
      if c =? 0x5f then
        if prev_underscore then None else scan_digits s' true acc digits
      else if (0x30 <=? c) && (c <=? 0x39) then
        scan_digits s' false (10 * acc + (c - 0x30)) (S digits)
      else if prev_underscore then None else Some (acc, digits, s)
  end.

(** [_PY_LONG_MAX_STR_DIGITS_THRESHOLD]. *)
Definition MAX_STR_DIGITS_THRESHOLD : nat := 640.

(** [int(s)]: [None] stands for [ValueError].  [max_str_digits] is
    [sys.get_int_max_str_digits()]: 4300 by default, 0 when the limit is
    switched off (and in interpreters that have no such limit). *)
Definition int (max_str_digits : nat) (s : pystr) : option Z :=
  let s1 := drop_while c_isspace (transform s) in
  let '(negative, s2) :=
    match s1 with
    | c :: s' =>
        if c =? 0x2b then (false, s')
        else if c =? 0x2d then (true, s')
        else (false, s1)
    | [] => (false, s1)
    end in
  match s2 with
  | c :: _ =>
      if c =? 0x5f then None
      else
        match scan_digits s2 false 0 0 with
        | None => None
        | Some (v, digits, rest) =>
            if (digits =? 0)%nat then None
            else if (MAX_STR_DIGITS_THRESHOLD <? digits)%nat
                    && (0 <? max_str_digits)%nat
                    && (max_str_digits <? digits)%nat then None
            else
              match drop_while c_isspace rest with
              | [] => Some (if negative then (- Z.of_N v)%Z else Z.of_N v)
              | _ :: _ => None
              end
        end
  | [] => None
  end.

(** ** The [windows-1252] codec ([encodings/cp1252.py]) *)

(** Rows 0x80 to 0x9f of the codec's decoding table; [None] is an entry
    the table marks UNDEFINED. *)
Definition cp1252_high : list (option N) :=
  [ Some 0x20ac; None;        Some 0x201a; Some 0x0192;
    Some 0x201e; Some 0x2026; Some 0x2020; Some 0x2021;
    Some 0x02c6; Some 0x2030; Some 0x0160; Some 0x2039;
    Some 0x0152; None;        Some 0x017d; None;
    None;        Some 0x2018; Some 0x2019; Some 0x201c;
    Some 0x201d; Some 0x2022; Some 0x2013; Some 0x2014;
    Some 0x02dc; Some 0x2122; Some 0x0161; Some 0x203a;
    Some 0x0153; None;        Some 0x017e; Some 0x0178 ].

(** The decoding table: rows 0x00 to 0x7f and 0xa0 to 0xff map a byte to
    the code point of the same value. *)
Definition decoding_table (b : byte) : option N :=
  let n := Byte.to_N b in
  if (n <? 0x80) || (0xa0 <=? n) then Some n
  else nth (N.to_nat (n - 0x80)) cp1252_high None.

(** [bytes.decode('windows-1252')], errors='strict'. *)
Fixpoint decode (data : list byte) : res pystr :=
  match data with
  | [] => Ok []
  | b :: data' =>
      match decoding_table b with
      | None => Exc UnicodeDecodeError
      | Some c =>
          match decode data' with
          | Ok s => Ok (c :: s)
          | Exc e => Exc e
          end
      end
  end.

(** The 256 bytes, in order. *)
Definition all_bytes : list byte :=
  flat_map (fun n => match Byte.of_nat n with Some b => [b] | None => [] end)
           (seq 0 256).

(** The encoding table is the decoding table inverted. *)
Definition encoding_table (c : N) : option byte :=
  List.find (fun b => match decoding_table b with
                      | Some c' => c' =? c
                      | None => false
                      end) all_bytes.

(** [str.encode('windows-1252')], errors='strict'. *)
Fixpoint encode (s : pystr) : res (list byte) :=
  match s with
  | [] => Ok []
  | c :: s' =>
      match encoding_table c with
      | None => Exc UnicodeEncodeError
      | Some b =>
          match encode s' with
          | Ok data => Ok (b :: data)
          | Exc e => Exc e
          end
      end
  end.

End Py.

(** ** [PacketType] and [Packet] *)

Inductive PacketType : Type :=
| SEND
| RECEIVE.

Definition PacketType_value (t : PacketType) : Z :=
  match t with
  | SEND => 1
  | RECEIVE => 0
  end.

(** [PacketType(n)]: the member whose value is [n], [ValueError] when there
    is none. *)
Definition PacketType_call (n : Z) : res PacketType :=
  if (n =? PacketType_value SEND)%Z then Ok SEND
  else if (n =? PacketType_value RECEIVE)%Z then Ok RECEIVE
  else Exc ValueError.

Record Packet : Type := mkPacket {
  type : PacketType;
  header : pystr;
  content : pystr
}.

(** The space character, the separator of [Packet.from_string]. *)
Definition SP : N := 0x20.

Section FromString.

(** The interpreter's limit on the digits of an [int] literal. *)
Variable max_str_digits : nat.

(** [Packet.from_string]: [Ok None] is the [None] the method returns for
    a line of fewer than three parts. *)
Definition from_string (packet : pystr) : res (option Packet) :=
  let parts := Py.split SP 2 (Py.strip packet) in
  if (length parts <? 3)%nat then Ok None
  else
    match parts with
    | p0 :: rest =>
        match Py.int max_str_digits p0 with
        | None => Exc ValueError
        | Some n =>
            match PacketType_call n with
            | Exc e => Exc e
            | Ok t =>
                match rest with
                | [h; c] => Ok (Some (mkPacket t h c))
                | _ => Exc TypeError
                end
            end
        end
    | [] => Exc TypeError
    end.

End FromString.

(** ** Stateful computations

    A method that reads or writes an object is a function from the object's
    state to a [result]: a value or an exception, each with the state the
    object is left in, or [Diverges] when a loop has not ended within the
    fuel it was given. *)

Inductive result (S A : Type) : Type :=
| Val (a : A) (s : S)
| Err (e : exn) (s : S)
| Diverges.
Arguments Val {S A} a s.
Arguments Err {S A} e s.
Arguments Diverges {S A}.

Definition M (S A : Type) : Type := S -> result S A.

Definition ret {S A} (a : A) : M S A := fun s => Val a s.
Definition raise {S A} (e : exn) : M S A := fun s => Err e s.
Definition bind {S A B} (m : M S A) (k : A -> M S B) : M S B :=
  fun s =>
    match m s with
    | Val a s' => k a s'
    | Err e s' => Err e s'
    | Diverges => Diverges
    end.
Definition of_res {S A} (r : res A) : M S A :=
  match r with
  | Ok a => ret a
  | Exc e => raise e
  end.

Definition exn_eqb (a b : exn) : bool :=
  match a, b with
  | StopIteration, StopIteration | OSError, OSError
  | UnicodeDecodeError, UnicodeDecodeError
  | UnicodeEncodeError, UnicodeEncodeError
  | ValueError, ValueError | TypeError, TypeError | KeyError, KeyError => true
  | _, _ => false
  end.

(** [try: m  except e: h]. *)
Definition try_except {S A} (m : M S A) (e : exn) (h : M S A) : M S A :=
  fun s =>
    match m s with
    | Err e' s' => if exn_eqb e' e then h s' else Err e' s'
    | r => r
    end.

(** Runs a computation on a component of the state. *)
Definition zoom {S T A} (get : S -> T) (set : T -> S -> S) (m : M T A)
  : M S A :=
  fun s =>
    match m (get s) with
    | Val a t => Val a (set t s)
    | Err e t => Err e (set t s)
    | Diverges => Diverges
    end.

Declare Scope py_scope.
Delimit Scope py_scope with py.
Notation "x <- m ;; k" := (bind m (fun x => k))
  (at level 60, m at next level, right associativity) : py_scope.
Notation "m ;;; k" := (bind m (fun _ => k))
  (at level 60, right associativity) : py_scope.
Local Open Scope py_scope.

(** ** The transport

    A connected stream socket, seen from this end.  [incoming] scripts what
    the next calls of [recv] meet: a segment of bytes that has arrived, or a
    failure of the call.  When the script is used up the peer has closed the
    connection and [recv] returns [b''], at every call.  [recv_calls] counts
    the calls of [recv]; [sent] lists the arguments of the calls of [send],
    oldest first. *)

Inductive recv_event : Type :=
| Segment (data : list byte)
| Fault.

Record Socket : Type := mkSocket {
  incoming : list recv_event;
  recv_calls : nat;
  sent : list (list byte)
}.

(** [socket.recv(bufsize)]: at most [bufsize] bytes of what has arrived. *)
Definition recv (bufsize : nat) : M Socket (list byte) :=
  fun s =>
    let count := S (recv_calls s) in
    match incoming s with
    | [] => Val [] (mkSocket [] count (sent s))
    | Segment data :: evs =>
        if (length data <=? bufsize)%nat
        then Val data (mkSocket evs count (sent s))
        else Val (firstn bufsize data)
                 (mkSocket (Segment (skipn bufsize data) :: evs) count (sent s))
    | Fault :: evs => Err OSError (mkSocket evs count (sent s))
    end.

(** [socket.send(data)], for a socket that takes all of [data]. *)
Definition socket_send (data : list byte) : M Socket nat :=
  fun s =>
    Val (length data) (mkSocket (incoming s) (recv_calls s) (sent s ++ [data])).

(** ** [PacketLogger] *)

Definition BUFFER_SIZE : nat := 1024 * 8.
Definition DELIM : N := 0x0d.

Record PacketLogger : Type := mkPacketLogger {
  port : N;
  socket : Socket
}.

Definition on_socket {A} (m : M Socket A) : M PacketLogger A :=
  zoom socket (fun s pl => mkPacketLogger (port pl) s) m.

(** [PacketLogger.read]; [ENCODING] is ['windows-1252']. *)
Definition read : M PacketLogger pystr :=
  data <- on_socket (recv BUFFER_SIZE) ;;
  of_res (Py.decode data).

(** [PacketLogger.send]: the packet goes to the server.  The method writes
    the carriage return as a literal. *)
Definition send (packet : pystr) : M PacketLogger unit :=
  data <- of_res (Py.encode (lit "1 " ++ packet ++ [0x0d])) ;;
  on_socket (socket_send data) ;;;
  ret tt.

(** [PacketLogger.receive]: the packet goes to the client. *)
Definition receive (packet : pystr) : M PacketLogger unit :=
  data <- of_res (Py.encode (lit "0 " ++ packet ++ [0x0d])) ;;
  on_socket (socket_send data) ;;;
  ret tt.

(** ** [PacketIterator] *)

Record PacketIterator : Type := mkPacketIterator {
  packet_logger : PacketLogger;
  buffer : pystr
}.

(** [PacketLogger.__iter__]. *)
Definition iter (pl : PacketLogger) : PacketIterator := mkPacketIterator pl [].

Definition on_logger {A} (m : M PacketLogger A) : M PacketIterator A :=
  zoom packet_logger (fun pl self => mkPacketIterator pl (buffer self)) m.

Definition get_buffer : M PacketIterator pystr :=
  fun self => Val (buffer self) self.
Definition set_buffer (b : pystr) : M PacketIterator unit :=
  fun self => Val tt (mkPacketIterator (packet_logger self) b).

(** [PacketIterator.__read_data]: [None] when the read raised [OSError]. *)
Definition read_data : M PacketIterator (option pystr) :=
  try_except (s <- on_logger read ;; ret (Some s)) OSError (ret None).

(** [PacketIterator.__check_none]; the value is handed back for the code
    that goes on to use it as a [str]. *)
Definition check_none {A} (value : option A) (exception : exn)
  : M PacketIterator A :=
  match value with
  | None => raise exception
  | Some v => ret v
  end.

(** Truth value of a [str]. *)
Definition truthy (s : pystr) : bool :=
  match s with
  | [] => false
  | _ :: _ => true
  end.

(** Lines 49-50: [while DELIM not in buffer: buffer += read()]. *)
Fixpoint while_no_delim (fuel : nat) (buffer : pystr)
  : M PacketIterator pystr :=
  if Py.contains DELIM buffer then ret buffer
  else
    match fuel with
    | O => fun _ => Diverges
    | S fuel' =>
        chunk <- on_logger read ;;
        while_no_delim fuel' (buffer ++ chunk)
    end.

(** Lines 41-50 of [__next__]: the value of the local [buffer] when the
    loop has ended. *)
Definition fill (fuel : nat) : M PacketIterator pystr :=
  self_buffer <- get_buffer ;;
  buffer <- (if truthy self_buffer then ret (Some self_buffer)
             else read_data) ;;
  buffer <- check_none buffer StopIteration ;;
  (if negb (Py.contains DELIM buffer) then
     more <- read_data ;;
     more <- check_none more StopIteration ;;
     self_buffer <- get_buffer ;;
     set_buffer (self_buffer ++ more)
   else ret tt) ;;;
  while_no_delim fuel buffer.

(** [PacketIterator.__next__]. *)
Definition next (fuel : nat) : M PacketIterator pystr :=
  buffer <- fill fuel ;;
  match Py.split DELIM 1 buffer with
  | [line; buffer] => set_buffer buffer ;;; ret line
  | _ => raise ValueError
  end.

(** How a [for] loop over the iterator ends. *)
Inductive ending : Type :=
| Exhausted
| Raised (e : exn)
| Diverged
| Pending.

(** [for packet in pl]: the lines of at most [calls] calls of [__next__],
    and how the loop ended ([Pending]: it had not yet). *)
Fixpoint for_each (calls fuel : nat) (self : PacketIterator)
  : list pystr * ending :=
  match calls with
  | O => ([], Pending)
  | S calls' =>
      match next fuel self with
      | Val line self' =>
          let '(lines, e) := for_each calls' fuel self' in (line :: lines, e)
      | Err StopIteration _ => ([], Exhausted)
      | Err e _ => ([], Raised e)
      | Diverges => ([], Diverged)
      end
  end.

(** ** The registry of current connections *)

Section Registry.

(** What the registry holds: references to [PacketLogger] objects. *)
Context {Conn : Type}.

(** [PacketLogger.__instances], keyed by [threading.get_ident()]. *)
Abbreviation instances := (gmap positive Conn).

(** [set_global], called on [self] by the thread [ident]. *)
Definition set_global (ident : positive) (self : Conn) : M instances unit :=
  fun m => Val tt (<[ident := self]> m).

(** [unset_global]: [dict.pop] raises [KeyError] for a missing key. *)
Definition unset_global (ident : positive) : M instances unit :=
  fun m =>
    match m !! ident with
    | Some _ => Val tt (delete ident m)
    | None => Err KeyError m
    end.

(** [get_global_instance]. *)
Definition get_global_instance (ident : positive) : M instances (option Conn) :=
  fun m => Val (m !! ident) m.

Inductive registry_op : Type :=
| SetGlobal (self : Conn)
| UnsetGlobal
| GetGlobalInstance.

(** The registry after one operation of thread [ident]. *)
Definition state_after {A} (r : result instances A) (m : instances)
  : instances :=
  match r with
  | Val _ m' => m'
  | Err _ m' => m'
  | Diverges => m
  end.

Definition run_op (ident : positive) (op : registry_op) (m : instances)
  : instances :=
  match op with
  | SetGlobal self => state_after (set_global ident self m) m
  | UnsetGlobal => state_after (unset_global ident m) m
  | GetGlobalInstance => state_after (get_global_instance ident m) m
  end.

Definition run_ops (ident : positive) (ops : list registry_op)
           (m : instances) : instances :=
  fold_left (fun m op => run_op ident op m) ops m.

End Registry.

(** ** The record parser in the words of the specification

    "Split [line] on whitespace into at most 3 parts.  If fewer than 3 parts
    result, return absent.  Otherwise part[0] must decode as a Direction code
    ([0] or [1]); an unrecognized code is a decode failure.  part[1] is the
    header verbatim; part[2] is the content verbatim." *)

Module Spec.

(** The longest prefix of characters that are not whitespace, and the
    rest. *)
Fixpoint word (s : pystr) : pystr * pystr :=
  match s with
  | [] => ([], [])
  | c :: s' =>
      if Py.isspace c then ([], s)
      else let '(w, r) := word s' in (c :: w, r)
  end.

(** Splitting on whitespace, at most [maxsplit] times: runs of whitespace
    separate the parts, and the last part is what remains. *)
Fixpoint split_whitespace (maxsplit : nat) (s : pystr) : list pystr :=
  match Py.drop_while Py.isspace s with
  | [] => []
  | c :: s' =>
      match maxsplit with
      | O => [c :: s']
      | S k => let '(w, r) := word (c :: s') in w :: split_whitespace k r
      end
  end.

(** A Direction code: the single character [1] (OUTBOUND) or [0]
    (INBOUND). *)
Definition decode_direction (code : pystr) : res PacketType :=
  match code with
  | [0x31] => Ok SEND
  | [0x30] => Ok RECEIVE
  | _ => Exc ValueError
  end.

Definition parse (line : pystr) : res (option Packet) :=
  match split_whitespace 2 line with
  | [p0; p1; p2] =>
      match decode_direction p0 with
      | Ok d => Ok (Some (mkPacket d p1 p2))
      | Exc e => Exc e
      end
  | _ => Ok None
  end.

End Spec.

(** The characters the codec leaves undefined. *)
Definition undefined_bytes : list byte := [x81; x8d; x8f; x90; x9d].

(** ** Objects, [with] blocks and the module-level functions *)

(** A reference to a [PacketLogger] object. *)
Abbreviation objref := positive.

(** The class attribute [__instances], which holds references, and the
    state of the object behind every reference. *)
Record World : Type := mkWorld {
  instances : gmap positive objref;
  objects : objref -> PacketLogger
}.

Definition on_instances {A} (m : M (gmap positive objref) A) : M World A :=
  zoom instances (fun i w => mkWorld i (objects w)) m.

(** The objects after the state of [self] has become [pl]. *)
Definition store (self : objref) (pl : PacketLogger)
           (objs : objref -> PacketLogger) : objref -> PacketLogger :=
  fun r => if Pos.eqb r self then pl else objs r.

(** A method call on the object [self]. *)
Definition on_object {A} (self : objref) (m : M PacketLogger A) : M World A :=
  zoom (fun w => objects w self)
       (fun pl w => mkWorld (instances w) (store self pl (objects w))) m.

(** [PacketLogger.__enter__], run by the thread [ident]. *)
Definition enter (ident : positive) (self : objref) : M World objref :=
  on_instances (set_global ident self) ;;; ret self.

(** [PacketLogger.__exit__]: it returns [None], so that an exception of the
    block is not swallowed. *)
Definition exit (ident : positive) (self : objref) : M World unit :=
  on_instances (unset_global ident).

(** What module-level code can raise: [AttributeError], when a method is
    called on [None], or what a method of the classes raises. *)
Inductive module_exn : Type :=
| AttributeError
| Method (e : exn).

Inductive module_result (A : Type) : Type :=
| Returns (a : A) (w : World)
| Raises (e : module_exn) (w : World)
| Unfinished.
Arguments Returns {A} a w.
Arguments Raises {A} e w.
Arguments Unfinished {A}.

Definition Mod (A : Type) : Type := World -> module_result A.

Definition lift {A} (m : M World A) : Mod A :=
  fun w =>
    match m w with
    | Val a w' => Returns a w'
    | Err e w' => Raises (Method e) w'
    | Diverges => Unfinished
    end.

(** One statement after another. *)
Definition and_then {A B} (m : Mod A) (k : Mod B) : Mod B :=
  fun w =>
    match m w with
    | Returns _ w' => k w'
    | Raises e w' => Raises e w'
    | Unfinished => Unfinished
    end.

(** [with self: body], run by the thread [ident]: [__exit__] runs when the
    body has returned and when it has raised; an exception of the body is
    raised again after it, unless [__exit__] raises one itself. *)
Definition with_block {A} (ident : positive) (self : objref) (body : Mod A)
  : Mod A :=
  fun w =>
    match lift (enter ident self) w with
    | Returns _ w1 =>
        match body w1 with
        | Returns a w2 =>
            match lift (exit ident self) w2 with
            | Returns _ w3 => Returns a w3
            | Raises e w3 => Raises e w3
            | Unfinished => Unfinished
            end
        | Raises e w2 =>
            match lift (exit ident self) w2 with
            | Returns _ w3 => Raises e w3
            | Raises e' w3 => Raises e' w3
            | Unfinished => Unfinished
            end
        | Unfinished => Unfinished
        end
    | Raises e w1 => Raises e w1
    | Unfinished => Unfinished
    end.

(** The method call [PacketLogger.get_global_instance().m(...)] of the
    thread [ident]. *)
Definition on_global_instance {A} (ident : positive) (m : M PacketLogger A)
  : Mod A :=
  fun w =>
    match on_instances (get_global_instance ident) w with
    | Val (Some self) w' => lift (on_object self m) w'
    | Val None w' => Raises AttributeError w'
    | Err e w' => Raises (Method e) w'
    | Diverges => Unfinished
    end.

(** The module-level [send] and [receive]. *)
Definition module_send (ident : positive) (packet : pystr) : Mod unit :=
  on_global_instance ident (send packet).

Definition module_receive (ident : positive) (packet : pystr) : Mod unit :=
  on_global_instance ident (receive packet).

(** ** Notions of the further properties *)

(** The text of complete lines, each followed by the delimiter. *)
Definition frame (lines : list pystr) : pystr :=
  flat_map (fun line => line ++ [DELIM]) lines.

(** A character the codec can encode. *)
Definition encodable (c : N) : bool :=
  match Py.encoding_table c with
  | Some _ => true
  | None => false
  end.

(** [pl'] is [pl] after some reads and nothing else: same port, same bytes
    sent, no fewer calls of [recv]. *)
Definition only_read (pl pl' : PacketLogger) : Prop :=
  port pl' = port pl
  /\ sent (socket pl') = sent (socket pl)
  /\ (recv_calls (socket pl) <= recv_calls (socket pl'))%nat.

(** A chunk of complete lines as the transport delivers it: its bytes and
    the lines they decode to. *)
Definition aligned_chunk (chunk : list byte * list pystr) : Prop :=
  snd chunk <> []
  /\ Forall (fun line => Py.contains DELIM line = false) (snd chunk)
  /\ (length (fst chunk) <= BUFFER_SIZE)%nat
  /\ Py.decode (fst chunk) = Ok (frame (snd chunk)).

(** ** Inputs of the examples *)

(** A [bytes] literal of ASCII characters. *)
Definition blit (s : string) : list byte := list_byte_of_string s.

(** The delimiter as a byte. *)
Definition CR : byte := x0d.

(** The port of the examples of the module. *)
Definition PORT : N := 63247.

(** A connection on which [evs] is about to arrive. *)
Definition logger_on (evs : list recv_event) : PacketLogger :=
  mkPacketLogger PORT (mkSocket evs 0 []).

(** The bytes a script delivers, in order. *)
Definition stream_bytes (evs : list recv_event) : list byte :=
  flat_map (fun ev => match ev with Segment data => data | Fault => [] end) evs.

(** The stream [abc\rd\r] arriving in one segment, and in three; the
    connection then fails. *)
Definition one_segment : list recv_event :=
  [Segment (blit "abc" ++ [CR] ++ blit "d" ++ [CR]); Fault].
Definition three_segments : list recv_event :=
  [Segment (blit "ab"); Segment (blit "c" ++ [CR]);
   Segment (blit "d" ++ [CR]); Fault].

(** A byte that decodes to a character other than the delimiter. *)
Definition plain_byte (b : byte) : bool :=
  match Py.decoding_table b with
  | Some c => negb (c =? DELIM)
  | None => false
  end.

(** A script that delivers bytes without a delimiter, in any number of
    segments, until the peer closes the connection. *)
Definition undelimited (evs : list recv_event) : bool :=
  forallb (fun ev => match ev with
                     | Segment data => forallb plain_byte data
                     | Fault => false
                     end) evs.

(** A line whose fields are separated by tabs. *)
Definition tab_line : pystr := lit "0" ++ [0x09] ++ lit "mv" ++ [0x09] ++ lit "x".

(** * Properties *)

(** Runs the steps of a computation that need no case analysis. *)
Ltac run :=
  cbv [bind ret raise check_none get_buffer set_buffer of_res];
  cbn [buffer packet_logger negb].

(** ** Strings *)

Lemma contains_app sep (a b : pystr) :
  Py.contains sep (a ++ b) = Py.contains sep a || Py.contains sep b.
Proof. unfold Py.contains. apply existsb_app. Qed.

Lemma contains_cons sep c (s : pystr) :
  Py.contains sep (c :: s) = (sep =? c) || Py.contains sep s.
Proof. reflexivity. Qed.

Lemma contains_count sep (s : pystr) :
  Py.contains sep s = false -> count_occ N.eq_dec s sep = 0%nat.
Proof.
  induction s as [|c s IH]; intros H; [reflexivity|].
  rewrite contains_cons in H. apply orb_false_iff in H as [Hc Hs].
  apply N.eqb_neq in Hc. simpl.
  destruct (N.eq_dec c sep) as [->|_]; [congruence|auto].
Qed.

Lemma partition_app sep (l r : pystr) :
  Py.contains sep l = false ->
  Py.partition sep (l ++ sep :: r) = Some (l, r).
Proof.
  induction l as [|c l IH]; simpl; intros H.
  - now rewrite N.eqb_refl.
  - apply orb_false_iff in H as [Hc Hl].
    rewrite N.eqb_sym, Hc, IH by assumption. reflexivity.
Qed.

Lemma partition_none sep (s : pystr) :
  Py.contains sep s = false -> Py.partition sep s = None.
Proof.
  induction s as [|c s IH]; simpl; intros H; [reflexivity|].
  apply orb_false_iff in H as [Hc Hs].
  rewrite N.eqb_sym, Hc, IH by assumption. reflexivity.
Qed.

Lemma partition_some sep (s l r : pystr) :
  Py.partition sep s = Some (l, r) ->
  s = l ++ sep :: r /\ Py.contains sep l = false.
Proof.
  revert l. induction s as [|c s IH]; simpl; intros l H; [discriminate|].
  destruct (c =? sep) eqn:Hc.
  - apply N.eqb_eq in Hc. inversion H; subst. now split.
  - destruct (Py.partition sep s) as [[l' r']|]; [|discriminate].
    inversion H; subst. destruct (IH l' eq_refl) as [-> Hl].
    split; [reflexivity|]. rewrite contains_cons, N.eqb_sym, Hc. exact Hl.
Qed.

Lemma partition_count sep (s l r : pystr) :
  Py.partition sep s = Some (l, r) ->
  count_occ N.eq_dec s sep = S (count_occ N.eq_dec r sep).
Proof.
  intros H. apply partition_some in H as [-> Hl].
  rewrite count_occ_app, (contains_count _ _ Hl). simpl.
  destruct (N.eq_dec sep sep); [reflexivity|congruence].
Qed.

Lemma drop_while_app p (a b : pystr) :
  Py.drop_while p (a ++ b)
  = match Py.drop_while p a with
    | [] => Py.drop_while p b
    | c :: r => (c :: r) ++ b
    end.
Proof.
  induction a as [|c a IH]; simpl; [now destruct (Py.drop_while p b)|].
  destruct (p c); [exact IH|reflexivity].
Qed.

(** ** [Packet.from_string] *)

Section FromStringFacts.

Variable lim : nat.

(** A trimmed line with two separators: three parts, and the first one
    decides between a packet and [ValueError]. *)
Lemma from_string_parts (line p0 p1 p2 : pystr) :
  Py.strip line = p0 ++ SP :: p1 ++ SP :: p2 ->
  Py.contains SP p0 = false ->
  Py.contains SP p1 = false ->
  from_string lim line
  = match Py.int lim p0 with
    | None => Exc ValueError
    | Some n =>
        match PacketType_call n with
        | Ok t => Ok (Some (mkPacket t p1 p2))
        | Exc e => Exc e
        end
    end.
Proof.
  intros Hs H0 H1. unfold from_string. rewrite Hs.
  cbn [Py.split]. rewrite (partition_app _ _ _ H0), (partition_app _ _ _ H1).
  cbn [length Nat.ltb Nat.leb].
  destruct (Py.int lim p0) as [n|]; [|reflexivity].
  now destruct (PacketType_call n).
Qed.

(** A trimmed line with fewer than two separators: [None]. *)
Lemma from_string_few (line : pystr) :
  (count_occ N.eq_dec (Py.strip line) SP < 2)%nat ->
  from_string lim line = Ok None.
Proof.
  intros H. unfold from_string. cbn [Py.split].
  destruct (Py.partition SP (Py.strip line)) as [[l r]|] eqn:E1; [|reflexivity].
  destruct (Py.partition SP r) as [[l' r']|] eqn:E2; [|reflexivity].
  apply partition_count in E1, E2. lia.
Qed.

Lemma split_length sep (k : nat) (s : pystr) :
  (1 <= length (Py.split sep k s) <= S k)%nat.
Proof.
  revert s. induction k as [|k IH]; intros s; cbn [Py.split].
  - simpl. lia.
  - destruct (Py.partition sep s) as [[l r]|]; cbn [length];
      [specialize (IH r)|]; lia.
Qed.

(** The dataclass constructor always gets its three arguments. *)
Lemma from_string_no_type_error (line : pystr) :
  from_string lim line <> Exc TypeError.
Proof.
  unfold from_string.
  pose proof (split_length SP 2 (Py.strip line)) as Hlen.
  destruct (Py.split SP 2 (Py.strip line)) as [|p0 [|p1 [|p2 [|p3 rest]]]];
    cbn [length] in *; try lia; cbn [Nat.ltb Nat.leb]; try discriminate.
  destruct (Py.int lim p0) as [n|]; [|discriminate].
  unfold PacketType_call.
  destruct (n =? PacketType_value SEND)%Z; [discriminate|].
  destruct (n =? PacketType_value RECEIVE)%Z; discriminate.
Qed.

End FromStringFacts.

Lemma partition_none_count sep (s : pystr) :
  Py.partition sep s = None -> count_occ N.eq_dec s sep = 0%nat.
Proof.
  induction s as [|c s IH]; simpl; intros H; [reflexivity|].
  destruct (c =? sep) eqn:Hc; [discriminate|].
  destruct (Py.partition sep s) as [[l r]|]; [discriminate|].
  apply N.eqb_neq in Hc. destruct (N.eq_dec c sep); [congruence|auto].
Qed.

(** A text with two separators or more is a first part, a separator, a
    second part, a separator and a rest. *)
Lemma two_separators sep (s : pystr) :
  (2 <= count_occ N.eq_dec s sep)%nat ->
  exists p0 p1 p2 : pystr,
    s = p0 ++ sep :: p1 ++ sep :: p2
    /\ Py.contains sep p0 = false /\ Py.contains sep p1 = false.
Proof.
  intros H.
  destruct (Py.partition sep s) as [[p0 r]|] eqn:E0;
    [|apply partition_none_count in E0; lia].
  pose proof (partition_count _ _ _ _ E0) as Hc0.
  destruct (Py.partition sep r) as [[p1 p2]|] eqn:E1;
    [|apply partition_none_count in E1; lia].
  apply partition_some in E0 as [-> H0]. apply partition_some in E1 as [-> H1].
  now exists p0, p1, p2.
Qed.

(** On the three lines of the specification, splitting on whitespace and
    [from_string] agree. *)
Example spec_parse_examples :
  Spec.parse (lit "1 cond") = from_string 4300 (lit "1 cond")
  /\ Spec.parse (lit "0 mv hello world")
     = from_string 4300 (lit "0 mv hello world")
  /\ Spec.parse (lit "9 x y") = from_string 4300 (lit "9 x y").
Proof. repeat split; reflexivity. Qed.

(** C6, as stated, fails: on a line whose three fields are separated by
    tabs, splitting on whitespace gives the record [RECEIVE mv x], while
    [from_string], which splits at space characters only, returns [None]. *)
Lemma from_string_tab_line :
  Spec.parse tab_line = Ok (Some (mkPacket RECEIVE (lit "mv") (lit "x")))
  /\ from_string 4300 tab_line = Ok None
  /\ ~ (forall line : pystr, from_string 4300 line = Spec.parse line).
Proof.
  split; [reflexivity|]. split; [reflexivity|].
  intros H. specialize (H tab_line). discriminate H.
Qed.

(** C6, amended: [from_string] trims the line and splits it at its first
    two space characters.  With fewer than two spaces in the trimmed line it
    returns [None].  Otherwise the parts are the text before the first
    space, the text between the first two spaces and the rest; the result is
    [ValueError] unless [int] gives the first part the value 1 or 0, and
    else the packet of that direction with the second part as header and the
    rest as content.  The three lines of the specification parse as it
    says. *)
Theorem from_string_spec (lim : nat) (line : pystr) :
  ((count_occ N.eq_dec (Py.strip line) SP < 2)%nat ->
   from_string lim line = Ok None)
  /\ (forall p0 p1 p2 : pystr,
        Py.strip line = p0 ++ SP :: p1 ++ SP :: p2 ->
        Py.contains SP p0 = false ->
        Py.contains SP p1 = false ->
        from_string lim line
        = match Py.int lim p0 with
          | Some 1%Z => Ok (Some (mkPacket SEND p1 p2))
          | Some 0%Z => Ok (Some (mkPacket RECEIVE p1 p2))
          | _ => Exc ValueError
          end)
  /\ from_string lim (lit "1 cond") = Ok None
  /\ from_string lim (lit "0 mv hello world")
     = Ok (Some (mkPacket RECEIVE (lit "mv") (lit "hello world")))
  /\ from_string lim (lit "9 x y") = Exc ValueError.
Proof.
  split; [apply from_string_few|].
  split; [|repeat split; reflexivity].
  intros p0 p1 p2 Hs H0 H1.
  rewrite (from_string_parts lim line p0 p1 p2 Hs H0 H1).
  destruct (Py.int lim p0) as [[|[p|p|]|p]|]; reflexivity.
Qed.

Lemma from_string_spec_witness :
  from_string 4300 (lit " 1 walk 3 4 ")
  = Ok (Some (mkPacket SEND (lit "walk") (lit "3 4")))
  /\ from_string 4300 (lit "0 cond ") = Ok None.
Proof.
  split.
  - apply (proj1 (proj2 (from_string_spec 4300 (lit " 1 walk 3 4 ")))
             (lit "1") (lit "walk") (lit "3 4")); reflexivity.
  - apply (proj1 (from_string_spec 4300 (lit "0 cond "))).
    vm_compute. lia.
Defined.

(** C10: the direction is read off the integer value of the first part,
    not off its spelling.  [01] and [+1] have the value 1 although they are
    not the character [1]; and whenever the trimmed line is a first part, a
    space, a header without spaces, a space and a content, a first part of
    value 1 gives a [SEND] packet and one of value 0 a [RECEIVE] packet. *)
Theorem from_string_by_value (lim : nat) :
  Py.int lim (lit "01") = Some 1%Z
  /\ Py.int lim (lit "+1") = Some 1%Z
  /\ Py.int lim (lit "00") = Some 0%Z
  /\ Py.int lim (lit "-0") = Some 0%Z
  /\ forall line t h c : pystr,
       Py.strip line = t ++ SP :: h ++ SP :: c ->
       Py.contains SP t = false ->
       Py.contains SP h = false ->
       (Py.int lim t = Some 1%Z ->
        from_string lim line = Ok (Some (mkPacket SEND h c)))
       /\ (Py.int lim t = Some 0%Z ->
           from_string lim line = Ok (Some (mkPacket RECEIVE h c))).
Proof.
  repeat (split; [reflexivity|]).
  intros line t h c Hs Ht Hh.
  rewrite (from_string_parts lim line t h c Hs Ht Hh).
  split; intros ->; reflexivity.
Qed.

Lemma from_string_by_value_witness :
  from_string 4300 (lit "+1 walk 3 4")
  = Ok (Some (mkPacket SEND (lit "walk") (lit "3 4")))
  /\ from_string 4300 (lit "00 mv 1 2")
     = Ok (Some (mkPacket RECEIVE (lit "mv") (lit "1 2"))).
Proof.
  pose proof (from_string_by_value 4300) as (_ & _ & _ & _ & H).
  split.
  - apply (H (lit "+1 walk 3 4") (lit "+1") (lit "walk") (lit "3 4"));
      reflexivity.
  - apply (H (lit "00 mv 1 2") (lit "00") (lit "mv") (lit "1 2"));
      reflexivity.
Defined.

(** ** The codec *)

Lemma decoding_table_undefined (b : byte) :
  Py.decoding_table b = None <-> In b undefined_bytes.
Proof.
  destruct b; vm_compute; split; intros H;
    solve [ reflexivity | discriminate | tauto
          | repeat (destruct H as [H|H]; [discriminate H|]); destruct H ].
Qed.

Lemma encoding_table_inverse (c : N) (b : byte) :
  Py.encoding_table c = Some b -> Py.decoding_table b = Some c.
Proof.
  unfold Py.encoding_table. intros H. apply find_some in H as [_ H].
  destruct (Py.decoding_table b) as [c'|]; [|discriminate].
  apply N.eqb_eq in H. now subst.
Qed.

Lemma decode_encode (s : pystr) (data : list byte) :
  Py.encode s = Ok data -> Py.decode data = Ok s.
Proof.
  revert data. induction s as [|c s IH]; simpl; intros data H.
  - now inversion H.
  - destruct (Py.encoding_table c) as [b|] eqn:Hb; [|discriminate].
    destruct (Py.encode s) as [data'|]; [|discriminate].
    inversion H; subst. simpl.
    now rewrite (encoding_table_inverse _ _ Hb), (IH data' eq_refl).
Qed.

Lemma encode_length (s : pystr) (data : list byte) :
  Py.encode s = Ok data -> length data = length s.
Proof.
  revert data. induction s as [|c s IH]; simpl; intros data H.
  - now inversion H.
  - destruct (Py.encoding_table c); [|discriminate].
    destruct (Py.encode s) as [data'|]; [|discriminate].
    inversion H; subst. simpl. f_equal. now apply IH.
Qed.

(** C8, as stated, fails: the byte 0x81 has no character, decoding it
    raises [UnicodeDecodeError], and so does the [read] that receives it. *)
Lemma decode_x81 :
  Py.decoding_table x81 = None
  /\ Py.decode [x81] = Exc UnicodeDecodeError
  /\ read (logger_on [Segment [x81]])
     = Err UnicodeDecodeError (mkPacketLogger PORT (mkSocket [] 1 []))
  /\ ~ (forall data : list byte, exists s, Py.decode data = Ok s).
Proof.
  repeat (split; [reflexivity|]).
  intros H. destruct (H [x81]) as [s Hs]. discriminate Hs.
Qed.

(** C8, amended: decoding is total on the byte sequences that hold none of
    0x81, 0x8d, 0x8f, 0x90 and 0x9d, where it gives one character per byte;
    a sequence that holds one of the five raises [UnicodeDecodeError]. *)
Theorem decode_defined (data : list byte) :
  (Forall (fun b => ~ In b undefined_bytes) data ->
   exists s, Py.decode data = Ok s /\ length s = length data)
  /\ (Exists (fun b => In b undefined_bytes) data ->
      Py.decode data = Exc UnicodeDecodeError).
Proof.
  induction data as [|b data [IHok IHbad]]; split; intros H.
  - exists []. now split.
  - inversion H.
  - inversion H as [|? ? Hb Hdata]; subst.
    destruct (IHok Hdata) as (s & Hs & Hlen).
    destruct (Py.decoding_table b) as [c|] eqn:Hc.
    + exists (c :: s). simpl. rewrite Hc, Hs. split; [reflexivity|].
      simpl. now f_equal.
    + now apply decoding_table_undefined in Hc.
  - simpl. destruct (Py.decoding_table b) as [c|] eqn:Hc; [|reflexivity].
    inversion H as [? ? Hb|? ? Hdata]; subst.
    + apply decoding_table_undefined in Hb. congruence.
    + now rewrite (IHbad Hdata).
Qed.

Lemma decode_defined_witness :
  (exists s, Py.decode (blit "1 walk" ++ [CR; xff]) = Ok s
             /\ length s = length (blit "1 walk" ++ [CR; xff]))
  /\ Py.decode [x31; x90] = Exc UnicodeDecodeError.
Proof.
  split.
  - apply (proj1 (decode_defined (blit "1 walk" ++ [CR; xff]))).
    repeat constructor; vm_compute; intros H;
      repeat (destruct H as [H|H]; [discriminate H|]); destruct H.
  - apply (proj2 (decode_defined [x31; x90])).
    apply Exists_cons_tl, Exists_cons_hd. vm_compute. tauto.
Defined.

(** ** The registry *)

Section RegistryFacts.

Context {Conn : Type}.

Lemma run_ops_other (ident ident' : positive) (ops : list registry_op)
      (m : gmap positive Conn) :
  ident' <> ident -> run_ops ident ops m !! ident' = m !! ident'.
Proof.
  intros Hne. revert m. unfold run_ops.
  induction ops as [|op ops IH]; intros m; [reflexivity|].
  cbn [fold_left]. rewrite IH.
  destruct op; unfold run_op, set_global, unset_global, get_global_instance;
    cbn [state_after].
  - now apply lookup_insert_ne.
  - destruct (m !! ident); cbn [state_after]; [|reflexivity].
    now apply lookup_delete_ne.
  - reflexivity.
Qed.

(** C9: a second [set_global] of a thread overwrites the first without an
    error; after [unset_global] the thread has no current connection,
    whether the call removed one or raised [KeyError]; and no operations of
    a thread change what another thread's [get_global_instance] returns. *)
Theorem registry_semantics (ident : positive) (c1 c2 : Conn)
        (m : gmap positive Conn) :
  (set_global ident c1 ;;; set_global ident c2 ;;; get_global_instance ident) m
  = Val (Some c2) (<[ident := c2]> m)
  /\ get_global_instance ident (run_op ident UnsetGlobal m)
     = Val None (run_op ident UnsetGlobal m)
  /\ forall (ident' : positive) (ops : list registry_op),
       ident' <> ident ->
       get_global_instance ident' (run_ops ident ops m)
       = Val (m !! ident') (run_ops ident ops m).
Proof.
  split; [|split].
  - unfold bind, set_global, get_global_instance.
    now rewrite lookup_insert_eq, insert_insert_eq.
  - unfold get_global_instance, run_op, unset_global. f_equal.
    destruct (m !! ident) eqn:E; cbn [state_after];
      [apply lookup_delete_eq|exact E].
  - intros ident' ops Hne. unfold get_global_instance.
    now rewrite (run_ops_other ident ident' ops m Hne).
Qed.

End RegistryFacts.

Lemma registry_semantics_witness :
  2%positive <> 1%positive
  /\ get_global_instance 2%positive
       (run_ops 1%positive
                [SetGlobal 10%nat; UnsetGlobal; UnsetGlobal; SetGlobal 11%nat]
                {[ 2%positive := 20%nat ]})
     = Val (({[ 2%positive := 20%nat ]} : gmap positive nat) !! 2%positive)
           (run_ops 1%positive
                    [SetGlobal 10%nat; UnsetGlobal; UnsetGlobal; SetGlobal 11%nat]
                    {[ 2%positive := 20%nat ]}).
Proof.
  split; [discriminate|].
  apply (proj2 (proj2 (registry_semantics 1%positive 10%nat 11%nat
                         {[ 2%positive := 20%nat ]})) 2%positive).
  discriminate.
Defined.

(** ** The framing reader *)

Lemma read_data_val (pl pl' : PacketLogger) (b s : pystr) :
  read pl = Val s pl' ->
  read_data (mkPacketIterator pl b) = Val (Some s) (mkPacketIterator pl' b).
Proof.
  intros H. unfold read_data, try_except, bind, on_logger, zoom.
  cbn [packet_logger buffer]. now rewrite H.
Qed.

Lemma while_no_delim_done (fuel : nat) (b : pystr) (self : PacketIterator) :
  Py.contains DELIM b = true -> while_no_delim fuel b self = Val b self.
Proof. intros H. destruct fuel; simpl; now rewrite H. Qed.

(** Fuel only bounds the loop: a result reached with some fuel is the
    result with more. *)
Lemma while_no_delim_more_fuel (fuel : nat) (b : pystr)
      (self : PacketIterator) :
  while_no_delim fuel b self <> Diverges ->
  while_no_delim (S fuel) b self = while_no_delim fuel b self.
Proof.
  revert b self. induction fuel as [|fuel IH]; intros b self H.
  - simpl in *. now destruct (Py.contains DELIM b).
  - change (while_no_delim (S (S fuel)) b self)
      with ((if Py.contains DELIM b then ret b
             else chunk <- on_logger read ;;
                  while_no_delim (S fuel) (b ++ chunk)) self).
    change (while_no_delim (S fuel) b self)
      with ((if Py.contains DELIM b then ret b
             else chunk <- on_logger read ;;
                  while_no_delim fuel (b ++ chunk)) self) in H |- *.
    destruct (Py.contains DELIM b); [reflexivity|].
    unfold bind in *. destruct (on_logger read self); try reflexivity.
    now apply IH.
Qed.

Lemma next_more_fuel (fuel : nat) (self : PacketIterator) :
  next fuel self <> Diverges -> next (S fuel) self = next fuel self.
Proof.
  unfold next, fill, bind. intros H.
  destruct (get_buffer self) as [b0 s0| |]; try reflexivity.
  destruct ((if truthy b0 then ret (Some b0) else read_data) s0)
    as [o s1| |]; try reflexivity.
  destruct (check_none o StopIteration s1) as [b s2| |]; try reflexivity.
  match goal with
  | |- context [match ?step s2 with _ => _ end] =>
      destruct (step s2) as [u s3| |]; try reflexivity
  end.
  rewrite while_no_delim_more_fuel; [reflexivity|].
  intros Hd. apply H. now rewrite Hd.
Qed.

Lemma contains_first sep (l r : pystr) :
  Py.contains sep (l ++ sep :: r) = true.
Proof.
  rewrite contains_app, contains_cons, N.eqb_refl.
  now rewrite orb_true_r.
Qed.

Lemma split_first sep (l r : pystr) :
  Py.contains sep l = false -> Py.split sep 1 (l ++ sep :: r) = [l; r].
Proof. intros H. cbn [Py.split]. now rewrite (partition_app _ _ _ H). Qed.

(** A buffered line is handed out without a read. *)
Lemma next_buffered (fuel : nat) (pl : PacketLogger) (l r : pystr) :
  Py.contains DELIM l = false ->
  next fuel (mkPacketIterator pl (l ++ DELIM :: r))
  = Val l (mkPacketIterator pl r).
Proof.
  intros Hl. unfold next, fill. run.
  assert (Ht : truthy (l ++ DELIM :: r) = true) by now destruct l.
  rewrite Ht. run. rewrite contains_first. run.
  rewrite while_no_delim_done by apply contains_first.
  rewrite (split_first _ _ _ Hl). now run.
Qed.

(** With an empty buffer, the first line of the chunk read is handed out
    and the rest of the chunk is kept. *)
Lemma next_first_chunk (fuel : nat) (pl pl' : PacketLogger) (l r : pystr) :
  read pl = Val (l ++ DELIM :: r) pl' ->
  Py.contains DELIM l = false ->
  next fuel (mkPacketIterator pl []) = Val l (mkPacketIterator pl' r).
Proof.
  intros Hread Hl. unfold next, fill. run.
  rewrite (read_data_val _ _ _ _ Hread). run.
  rewrite contains_first. run.
  rewrite while_no_delim_done by apply contains_first.
  rewrite (split_first _ _ _ Hl). now run.
Qed.

Lemma decode_plain (data : list byte) :
  forallb plain_byte data = true ->
  exists s, Py.decode data = Ok s /\ Py.contains DELIM s = false.
Proof.
  induction data as [|b data IH]; simpl; intros H.
  - now exists [].
  - apply andb_true_iff in H as [Hb Hdata].
    destruct (IH Hdata) as (s & Hs & Hc). unfold plain_byte in Hb.
    destruct (Py.decoding_table b) as [c|]; [|discriminate].
    exists (c :: s). rewrite Hs. split; [reflexivity|].
    rewrite contains_cons, Hc, N.eqb_sym.
    now destruct (c =? DELIM).
Qed.

Lemma forallb_firstn_skipn {A} (p : A -> bool) (n : nat) (l : list A) :
  forallb p l = true ->
  forallb p (firstn n l) = true /\ forallb p (skipn n l) = true.
Proof.
  intros H. rewrite <- (firstn_skipn n l), forallb_app in H.
  now apply andb_true_iff in H.
Qed.

(** A read from an undelimited script gives text without a delimiter and
    leaves an undelimited script. *)
Lemma read_undelimited (pl : PacketLogger) :
  undelimited (incoming (socket pl)) = true ->
  exists s pl',
    read pl = Val s pl'
    /\ Py.contains DELIM s = false
    /\ undelimited (incoming (socket pl')) = true.
Proof.
  intros H. unfold read, bind, on_socket, zoom, recv.
  destruct (incoming (socket pl)) as [|[data|] evs]; cbn [undelimited forallb] in H.
  - exists [], (mkPacketLogger (port pl)
                  (mkSocket [] (S (recv_calls (socket pl))) (sent (socket pl)))).
    repeat split.
  - apply andb_true_iff in H as [Hdata Hevs].
    destruct (length data <=? BUFFER_SIZE)%nat.
    + destruct (decode_plain _ Hdata) as (s & Hs & Hc).
      rewrite Hs. eexists _, _. repeat split; [exact Hc|exact Hevs].
    + destruct (forallb_firstn_skipn plain_byte BUFFER_SIZE data Hdata)
        as [Hhd Htl].
      destruct (decode_plain _ Hhd) as (s & Hs & Hc).
      rewrite Hs. eexists _, _. repeat split; [exact Hc|].
      cbn [socket incoming undelimited forallb].
      now rewrite Htl.
  - discriminate.
Qed.

Lemma while_no_delim_undelimited (fuel : nat) (b : pystr)
      (self : PacketIterator) :
  undelimited (incoming (socket (packet_logger self))) = true ->
  Py.contains DELIM b = false ->
  while_no_delim fuel b self = Diverges.
Proof.
  revert b self. induction fuel as [|fuel IH]; intros b self Hin Hb; simpl;
    rewrite Hb; [reflexivity|].
  destruct (read_undelimited _ Hin) as (s & pl' & Hread & Hs & Hin').
  unfold bind, on_logger, zoom. rewrite Hread.
  apply IH; [exact Hin'|].
  now rewrite contains_app, Hb, Hs.
Qed.

(** *** The exceptions of [__next__] *)

Lemma decode_error (data : list byte) (e : exn) :
  Py.decode data = Exc e -> e = UnicodeDecodeError.
Proof.
  induction data as [|b data IH]; simpl; [discriminate|].
  destruct (Py.decoding_table b); [|now intros [= <-]].
  destruct (Py.decode data); [discriminate|].
  intros [= <-]. now apply IH.
Qed.

Lemma read_error (pl pl' : PacketLogger) (e : exn) :
  read pl = Err e pl' -> e = OSError \/ e = UnicodeDecodeError.
Proof.
  unfold read, bind, on_socket, zoom, recv.
  destruct (incoming (socket pl)) as [|[data|] evs];
    [| destruct (length data <=? BUFFER_SIZE)%nat |];
    try (intros [= <- _]; now left);
    match goal with
    | |- context [Py.decode ?d] => destruct (Py.decode d) eqn:E
    end; cbn [of_res ret raise]; try discriminate;
    intros [= <- _]; right; now apply decode_error in E.
Qed.

Lemma read_data_error (self self' : PacketIterator) (e : exn) :
  read_data self = Err e self' -> e = UnicodeDecodeError.
Proof.
  unfold read_data, try_except, bind, on_logger, zoom.
  destruct (read (packet_logger self)) as [s pl'|e' pl'|] eqn:E;
    try discriminate.
  destruct (read_error _ _ _ E) as [-> | ->]; cbn [exn_eqb ret];
    [discriminate|now intros [= <- _]].
Qed.

Lemma while_no_delim_result (fuel : nat) (b : pystr) (self : PacketIterator) :
  match while_no_delim fuel b self with
  | Val w _ => Py.contains DELIM w = true
  | Err e _ => e = OSError \/ e = UnicodeDecodeError
  | Diverges => True
  end.
Proof.
  revert b self. induction fuel as [|fuel IH]; intros b self; simpl;
    destruct (Py.contains DELIM b) eqn:Hb; try exact Hb; try exact I.
  unfold bind, on_logger, zoom.
  destruct (read (packet_logger self)) as [s pl'|e pl'|] eqn:E.
  - apply IH.
  - exact (read_error _ _ _ E).
  - exact I.
Qed.

Lemma fill_result (fuel : nat) (self : PacketIterator) :
  match fill fuel self with
  | Val w _ => Py.contains DELIM w = true
  | Err e _ => e = StopIteration \/ e = OSError \/ e = UnicodeDecodeError
  | Diverges => True
  end.
Proof.
  assert (Hloop : forall b s,
             match while_no_delim fuel b s with
             | Val w _ => Py.contains DELIM w = true
             | Err e _ =>
                 e = StopIteration \/ e = OSError \/ e = UnicodeDecodeError
             | Diverges => True
             end).
  { intros b s. pose proof (while_no_delim_result fuel b s) as H.
    destruct (while_no_delim fuel b s); tauto. }
  assert (Hmore : forall b s,
             match ((more <- read_data ;;
                     more <- check_none more StopIteration ;;
                     self_buffer <- get_buffer ;;
                     set_buffer (self_buffer ++ more)) ;;;
                    while_no_delim fuel b) s with
             | Val w _ => Py.contains DELIM w = true
             | Err e _ =>
                 e = StopIteration \/ e = OSError \/ e = UnicodeDecodeError
             | Diverges => True
             end).
  { intros b s. unfold bind.
    destruct (read_data s) as [[more|] s1|e1 s1|] eqn:E1; run;
      [apply Hloop|tauto| |exact I].
    apply read_data_error in E1. tauto. }
  assert (Hrest : forall (o : option pystr) s,
             match (buffer <- check_none o StopIteration ;;
                    (if negb (Py.contains DELIM buffer) then
                       more <- read_data ;;
                       more <- check_none more StopIteration ;;
                       self_buffer <- get_buffer ;;
                       set_buffer (self_buffer ++ more)
                     else ret tt) ;;;
                    while_no_delim fuel buffer) s with
             | Val w _ => Py.contains DELIM w = true
             | Err e _ =>
                 e = StopIteration \/ e = OSError \/ e = UnicodeDecodeError
             | Diverges => True
             end).
  { intros [b|] s; unfold bind at 1; cbn [check_none]; cbv [ret raise];
      [|tauto].
    destruct (Py.contains DELIM b); cbn [negb]; [|apply Hmore].
    cbv [bind]. apply Hloop. }
  unfold fill. unfold bind at 1. cbv [get_buffer]. unfold bind at 1.
  destruct (truthy (buffer self)); [apply Hrest|].
  destruct (read_data self) as [o s1|e1 s1|] eqn:E1;
    [apply Hrest| |exact I].
  apply read_data_error in E1. tauto.
Qed.

Lemma contains_partition sep (s : pystr) :
  Py.contains sep s = true -> exists l r, Py.partition sep s = Some (l, r).
Proof.
  intros H. destruct (Py.partition sep s) as [[l r]|] eqn:E; [eauto|].
  induction s as [|c s IH]; [discriminate|].
  simpl in E. rewrite contains_cons, N.eqb_sym in H.
  destruct (c =? sep); [discriminate|].
  destruct (Py.partition sep s) as [[l r]|]; [discriminate|].
  now apply IH.
Qed.

(** [__next__] yields, ends the iteration, lets a transport or decoding
    error through, or does not return; the unpacking of line 52 never
    fails. *)
Lemma next_errors (fuel : nat) (self self' : PacketIterator) (e : exn) :
  next fuel self = Err e self' ->
  e = StopIteration \/ e = OSError \/ e = UnicodeDecodeError.
Proof.
  unfold next, bind. pose proof (fill_result fuel self) as H.
  destruct (fill fuel self) as [w s1|e1 s1|]; [|now intros [= <- _]|discriminate].
  destruct (contains_partition _ _ H) as (l & r & Hp).
  cbn [Py.split]. rewrite Hp. discriminate.
Qed.

(** C1, on the code: the stream [abc\rd\r] gives the lines [abc] and [d]
    when it arrives in one segment, and the single line [abd] when it arrives
    as [ab], [c\r], [d\r]: the second chunk is read and then left out of the
    line. *)
Theorem chunking_changes_lines (fuel : nat) :
  stream_bytes one_segment = stream_bytes three_segments
  /\ for_each 3 (S fuel) (iter (logger_on one_segment))
     = ([lit "abc"; lit "d"], Exhausted)
  /\ for_each 3 (S fuel) (iter (logger_on three_segments))
     = ([lit "abd"], Exhausted).
Proof. repeat split; destruct fuel; reflexivity. Qed.

(** C2, on the code: when neither the buffer nor the bytes still to arrive
    hold a delimiter and the peer then closes the connection, [__next__]
    does not return, whatever the fuel: at the end of the stream each read
    gives the empty string, which is not [None], and the loop of lines 49-50
    goes on. *)
Theorem next_undelimited_diverges (fuel : nat) (self : PacketIterator) :
  undelimited (incoming (socket (packet_logger self))) = true ->
  Py.contains DELIM (buffer self) = false ->
  next fuel self = Diverges.
Proof.
  destruct self as [pl b]. cbn [packet_logger buffer]. intros Hin Hb.
  unfold next, fill. run.
  destruct b as [|c b]; cbn [truthy].
  - destruct (read_undelimited _ Hin) as (s1 & pl1 & Hread1 & Hs1 & Hin1).
    rewrite (read_data_val _ _ _ _ Hread1). run. rewrite Hs1. run.
    destruct (read_undelimited _ Hin1) as (s2 & pl2 & Hread2 & Hs2 & Hin2).
    rewrite (read_data_val _ _ _ _ Hread2). run.
    now rewrite while_no_delim_undelimited.
  - run. rewrite Hb. run.
    destruct (read_undelimited _ Hin) as (s1 & pl1 & Hread1 & Hs1 & Hin1).
    rewrite (read_data_val _ _ _ _ Hread1). run.
    now rewrite while_no_delim_undelimited.
Qed.

Lemma next_undelimited_diverges_witness :
  next 1000 (iter (logger_on [])) = Diverges
  /\ next 1000 (iter (logger_on [Segment (blit "a" ++ [CR]); Segment (blit "tail")]))
     = Val (lit "a")
           (mkPacketIterator
              (mkPacketLogger PORT (mkSocket [Segment (blit "tail")] 1 [])) [])
  /\ next 1000 (mkPacketIterator
                  (mkPacketLogger PORT (mkSocket [Segment (blit "tail")] 1 [])) [])
     = Diverges.
Proof.
  split; [|split].
  - apply (next_undelimited_diverges 1000 (iter (logger_on []))); reflexivity.
  - reflexivity.
  - apply (next_undelimited_diverges 1000
             (mkPacketIterator
                (mkPacketLogger PORT (mkSocket [Segment (blit "tail")] 1 [])) []));
      reflexivity.
Defined.

(** C3, on the code: an [OSError] of the first or the second read of a
    call ends the iteration, and an [OSError] of a read of the loop of
    lines 49-50 reaches the caller. *)
Theorem next_oserror (fuel : nat) :
  next fuel (iter (logger_on [Fault]))
  = Err StopIteration (mkPacketIterator (mkPacketLogger PORT (mkSocket [] 1 [])) [])
  /\ next fuel (iter (logger_on [Segment (blit "ab"); Fault]))
     = Err StopIteration (mkPacketIterator (mkPacketLogger PORT (mkSocket [] 2 [])) [])
  /\ next (S fuel)
          (iter (logger_on [Segment (blit "ab"); Segment (blit "cd"); Fault]))
     = Err OSError
           (mkPacketIterator (mkPacketLogger PORT (mkSocket [] 3 [])) (lit "cd")).
Proof. repeat split; reflexivity. Qed.

(** C4: when the read of a reader with an empty buffer gives a chunk with
    exactly two delimiters, the first call yields the text before the first
    delimiter and the next call yields the text between the two, and leaves
    the connection as the first call left it, its count of reads
    included. *)
Theorem two_lines_one_read (fuel fuel' : nat) (pl pl' : PacketLogger)
        (x y z : pystr) :
  read pl = Val (x ++ DELIM :: y ++ DELIM :: z) pl' ->
  Py.contains DELIM x = false ->
  Py.contains DELIM y = false ->
  Py.contains DELIM z = false ->
  next fuel (iter pl) = Val x (mkPacketIterator pl' (y ++ DELIM :: z))
  /\ next fuel' (mkPacketIterator pl' (y ++ DELIM :: z))
     = Val y (mkPacketIterator pl' z)
  /\ recv_calls (socket pl') = S (recv_calls (socket pl)).
Proof.
  intros Hread Hx Hy _. split; [|split].
  - now apply next_first_chunk.
  - now apply next_buffered.
  - revert Hread. unfold read, bind, on_socket, zoom, recv.
    destruct (incoming (socket pl)) as [|[data|] evs];
      [| destruct (length data <=? BUFFER_SIZE)%nat |];
      cbn [of_res]; try discriminate;
      match goal with
      | |- context [Py.decode ?d] => destruct (Py.decode d)
      end; cbn [of_res ret raise]; intros H; inversion H; reflexivity.
Qed.

Lemma two_lines_one_read_witness :
  next 0 (iter (logger_on [Segment (blit "ab" ++ [CR] ++ blit "cd" ++ [CR] ++ blit "e")]))
  = Val (lit "ab")
        (mkPacketIterator (mkPacketLogger PORT (mkSocket [] 1 []))
                          (lit "cd" ++ DELIM :: lit "e"))
  /\ next 0 (mkPacketIterator (mkPacketLogger PORT (mkSocket [] 1 []))
                              (lit "cd" ++ DELIM :: lit "e"))
     = Val (lit "cd")
           (mkPacketIterator (mkPacketLogger PORT (mkSocket [] 1 [])) (lit "e"))
  /\ recv_calls (socket (mkPacketLogger PORT (mkSocket [] 1 []))) = 1%nat.
Proof.
  apply (two_lines_one_read 0 0
           (logger_on [Segment (blit "ab" ++ [CR] ++ blit "cd" ++ [CR] ++ blit "e")])
           (mkPacketLogger PORT (mkSocket [] 1 []))
           (lit "ab") (lit "cd") (lit "e")); reflexivity.
Defined.

(** C5, as stated, fails: from the chunk [a\rb\r] the first call yields
    [a] and leaves [b\r], delimiter included, in the buffer. *)
Lemma buffer_keeps_delimiter :
  next 0 (iter (logger_on [Segment (blit "a" ++ [CR] ++ blit "b" ++ [CR])]))
  = Val (lit "a")
        (mkPacketIterator (mkPacketLogger PORT (mkSocket [] 1 []))
                          (lit "b" ++ [DELIM]))
  /\ ~ (forall (fuel : nat) (self self' : PacketIterator) (line : pystr),
          next fuel self = Val line self' ->
          Py.contains DELIM (buffer self') = false).
Proof.
  split; [reflexivity|].
  intros H.
  specialize (H 0%nat
                (iter (logger_on [Segment (blit "a" ++ [CR] ++ blit "b" ++ [CR])]))
                _ _ eq_refl).
  discriminate H.
Qed.

(** C5, amended: when [__next__] yields a line, the text gathered by lines
    41-50 is that line, one delimiter and the new buffer; the line holds no
    delimiter, so the delimiter removed is the first one and the new buffer
    holds exactly one delimiter fewer than the text gathered (it may still
    hold some). *)
Theorem next_removes_first_line (fuel : nat) (self self' : PacketIterator)
        (line : pystr) :
  next fuel self = Val line self' ->
  exists (w : pystr) (self1 : PacketIterator),
    fill fuel self = Val w self1
    /\ w = line ++ DELIM :: buffer self'
    /\ Py.contains DELIM line = false
    /\ packet_logger self' = packet_logger self1
    /\ count_occ N.eq_dec w DELIM
       = S (count_occ N.eq_dec (buffer self') DELIM).
Proof.
  unfold next, bind. intros H.
  destruct (fill fuel self) as [w self1| |] eqn:Hfill; try discriminate.
  exists w, self1. split; [reflexivity|].
  cbn [Py.split] in H.
  destruct (Py.partition DELIM w) as [[l r]|] eqn:Hp; [|discriminate].
  revert H. run. intros H. inversion H; subst. cbn [buffer packet_logger].
  destruct (partition_some _ _ _ _ Hp) as [Hw Hl].
  repeat split; [exact Hw|exact Hl|].
  exact (partition_count _ _ _ _ Hp).
Qed.

Lemma next_removes_first_line_witness :
  exists (w : pystr) (self1 : PacketIterator),
    fill 0 (iter (logger_on [Segment (blit "a" ++ [CR] ++ blit "b" ++ [CR])]))
    = Val w self1
    /\ w = lit "a" ++ DELIM :: lit "b" ++ [DELIM]
    /\ Py.contains DELIM (lit "a") = false
    /\ mkPacketLogger PORT (mkSocket [] 1 []) = packet_logger self1
    /\ count_occ N.eq_dec w DELIM
       = S (count_occ N.eq_dec (lit "b" ++ [DELIM]) DELIM).
Proof.
  apply (next_removes_first_line 0
           (iter (logger_on [Segment (blit "a" ++ [CR] ++ blit "b" ++ [CR])]))
           (mkPacketIterator (mkPacketLogger PORT (mkSocket [] 1 []))
                             (lit "b" ++ [DELIM]))
           (lit "a")).
  reflexivity.
Defined.

(** ** [send], the peer's reader and [from_string] *)

Lemma strip_sent (P : pystr) :
  Py.strip (lit "1 " ++ P)
  = match Py.rstrip P with
    | [] => lit "1"
    | c :: s => lit "1 " ++ c :: s
    end.
Proof.
  unfold Py.strip, Py.lstrip, Py.rstrip.
  change (lit "1 " ++ P) with (0x31 :: 0x20 :: P).
  change (Py.drop_while Py.isspace (0x31 :: 0x20 :: P)) with (0x31 :: 0x20 :: P).
  change (rev (0x31 :: 0x20 :: P)) with ((rev P ++ [0x20]) ++ [0x31]).
  rewrite <- app_assoc, drop_while_app.
  destruct (Py.drop_while Py.isspace (rev P)) as [|c s]; [reflexivity|].
  rewrite rev_app_distr.
  destruct (rev (c :: s)) as [|c' s'] eqn:E; [|reflexivity].
  apply (f_equal (@length N)) in E. rewrite length_rev in E. discriminate E.
Qed.

(** C7, as stated, fails: for the payload [walk], [send] writes [1 walk\r]
    and the peer's reader yields [1 walk], but [from_string] returns [None]
    for that line, not a record with header [walk]. *)
Lemma send_walk :
  send (lit "walk") (logger_on [])
  = Val tt (mkPacketLogger PORT (mkSocket [] 0 [blit "1 walk" ++ [CR]]))
  /\ next 0 (iter (logger_on [Segment (blit "1 walk" ++ [CR])]))
     = Val (lit "1 walk")
           (mkPacketIterator (mkPacketLogger PORT (mkSocket [] 1 [])) [])
  /\ from_string 4300 (lit "1 walk") = Ok None
  /\ ~ (forall P : pystr,
          Py.contains DELIM P = false ->
          exists h c : pystr,
            from_string 4300 (lit "1 " ++ P)
            = Ok (Some (mkPacket SEND h c))).
Proof.
  repeat (split; [reflexivity|]).
  intros H. destruct (H (lit "walk") eq_refl) as (h & c & Hhc).
  discriminate Hhc.
Qed.

(** C7, amended: for a payload [P] without carriage return that the codec
    can encode, [send] hands the encoding of [1 ], [P] and the delimiter to
    the transport in one call, whatever its length; a peer's reader with an
    empty buffer whose read receives those bytes as one chunk, which takes
    them to be at most [BUFFER_SIZE], yields [1 ] followed by [P]; and
    [from_string] of that line gives, when [P] without its trailing
    whitespace has a space, the [SEND] packet whose header is the text
    before that first space and whose content is the rest, and [None] when
    it has no space. *)
Theorem send_round_trip (fuel lim : nat) (P : pystr) (data : list byte) :
  Py.contains DELIM P = false ->
  Py.encode (lit "1 " ++ P ++ [DELIM]) = Ok data ->
  (forall pl : PacketLogger,
     send P pl
     = Val tt (mkPacketLogger (port pl)
                 (mkSocket (incoming (socket pl)) (recv_calls (socket pl))
                           (sent (socket pl) ++ [data]))))
  /\ (forall (peer : PacketLogger) (evs : list recv_event),
        (length data <= BUFFER_SIZE)%nat ->
        incoming (socket peer) = Segment data :: evs ->
        next fuel (iter peer)
        = Val (lit "1 " ++ P)
              (mkPacketIterator
                 (mkPacketLogger (port peer)
                    (mkSocket evs (S (recv_calls (socket peer)))
                              (sent (socket peer))))
                 []))
  /\ (forall h c : pystr,
        Py.rstrip P = h ++ SP :: c ->
        Py.contains SP h = false ->
        from_string lim (lit "1 " ++ P) = Ok (Some (mkPacket SEND h c)))
  /\ (Py.contains SP (Py.rstrip P) = false ->
      from_string lim (lit "1 " ++ P) = Ok None).
Proof.
  intros HP Henc. split; [|split; [|split]].
  - intros pl. unfold send, bind. change [0x0d] with [DELIM].
    rewrite Henc. reflexivity.
  - intros peer evs Hlen Hin.
    replace (lit "1 " ++ P ++ [DELIM]) with ((lit "1 " ++ P) ++ DELIM :: [])
      in Henc by now rewrite <- app_assoc.
    apply next_first_chunk.
    + unfold read, bind, on_socket, zoom, recv. rewrite Hin.
      apply Nat.leb_le in Hlen. rewrite Hlen.
      now rewrite (decode_encode _ _ Henc).
    + rewrite contains_app, HP. reflexivity.
  - intros h c Hr Hh.
    rewrite (from_string_parts lim _ (lit "1") h c);
      [reflexivity| |reflexivity|exact Hh].
    rewrite strip_sent. rewrite Hr. now destruct h.
  - intros Hr. apply from_string_few.
    rewrite strip_sent.
    destruct (Py.rstrip P) as [|c s] eqn:E; [vm_compute; lia|].
    change (lit "1 " ++ c :: s) with (0x31 :: 0x20 :: c :: s).
    rewrite count_occ_cons_neq by discriminate.
    rewrite count_occ_cons_eq by reflexivity.
    rewrite (contains_count _ _ Hr). lia.
Qed.

Lemma send_round_trip_witness :
  (forall pl : PacketLogger,
     send (lit "say hello there") pl
     = Val tt (mkPacketLogger (port pl)
                 (mkSocket (incoming (socket pl)) (recv_calls (socket pl))
                           (sent (socket pl) ++ [blit "1 say hello there" ++ [CR]]))))
  /\ next 0 (iter (logger_on [Segment (blit "1 say hello there" ++ [CR])]))
     = Val (lit "1 " ++ lit "say hello there")
           (mkPacketIterator (mkPacketLogger PORT (mkSocket [] 1 [])) [])
  /\ from_string 4300 (lit "1 " ++ lit "say hello there")
     = Ok (Some (mkPacket SEND (lit "say") (lit "hello there")))
  /\ from_string 4300 (lit "1 " ++ lit "walk") = Ok None.
Proof.
  pose proof (send_round_trip 0 4300 (lit "say hello there")
                (blit "1 say hello there" ++ [CR]) eq_refl eq_refl)
    as (Hsend & Hnext & Hparse & _).
  pose proof (send_round_trip 0 4300 (lit "walk") (blit "1 walk" ++ [CR])
                eq_refl eq_refl) as (_ & _ & _ & Hnone).
  split; [exact Hsend|]. split; [|split].
  - apply (Hnext (logger_on [Segment (blit "1 say hello there" ++ [CR])]) []);
      [apply Nat.leb_le; reflexivity|reflexivity].
  - apply (Hparse (lit "say") (lit "hello there")); reflexivity.
  - apply Hnone. reflexivity.
Defined.

(** * Further properties *)

(** ** The codec, [read], [send] and [receive] *)

Lemma decoding_table_inverse (b : byte) (c : N) :
  Py.decoding_table b = Some c -> Py.encoding_table c = Some b.
Proof.
  destruct b; intros H; vm_compute in H;
    first [discriminate H | injection H as <-; vm_compute; reflexivity].
Qed.

Lemma encode_decode (data : list byte) (s : pystr) :
  Py.decode data = Ok s -> Py.encode s = Ok data.
Proof.
  revert s. induction data as [|b data IH]; simpl; intros s H.
  - now inversion H.
  - destruct (Py.decoding_table b) as [c|] eqn:Hc; [|discriminate].
    destruct (Py.decode data) as [s'|]; [|discriminate].
    inversion H; subst. simpl.
    now rewrite (decoding_table_inverse _ _ Hc), (IH s' eq_refl).
Qed.

(** X1: the codec is a bijection between the strings it can encode and the
    byte sequences it can decode: encoding [s] gives [data] exactly when
    decoding [data] gives [s], and then [data] has one byte for each
    character of [s]. *)
Theorem codec_round_trip (s : pystr) (data : list byte) :
  (Py.encode s = Ok data <-> Py.decode data = Ok s)
  /\ (Py.encode s = Ok data -> length data = length s).
Proof.
  split; [split|].
  - apply decode_encode.
  - apply encode_decode.
  - apply encode_length.
Qed.

Lemma codec_round_trip_witness :
  Py.decode [x80; x0d; xff] = Ok [0x20ac; 0x0d; 0xff]
  /\ Py.encode [0x20ac; 0x0d; 0xff] = Ok [x80; x0d; xff].
Proof.
  split.
  - apply (proj1 (proj1 (codec_round_trip [0x20ac; 0x0d; 0xff] [x80; x0d; xff]))).
    reflexivity.
  - apply (proj2 (proj1 (codec_round_trip [0x20ac; 0x0d; 0xff] [x80; x0d; xff]))).
    reflexivity.
Defined.

Lemma encode_app (a b : pystr) :
  Py.encode (a ++ b)
  = match Py.encode a, Py.encode b with
    | Ok da, Ok db => Ok (da ++ db)
    | Exc e, _ => Exc e
    | Ok _, Exc e => Exc e
    end.
Proof.
  induction a as [|c a IH]; simpl; [now destruct (Py.encode b)|].
  destruct (Py.encoding_table c); [|reflexivity].
  rewrite IH. destruct (Py.encode a), (Py.encode b); reflexivity.
Qed.

Lemma encode_encodable (s : pystr) :
  if forallb encodable s
  then exists data, Py.encode s = Ok data
  else Py.encode s = Exc UnicodeEncodeError.
Proof.
  induction s as [|c s IH]; simpl; [now exists []|].
  unfold encodable at 1. destruct (Py.encoding_table c) as [b|]; simpl;
    [|reflexivity].
  destruct (forallb encodable s).
  - destruct IH as [data ->]. now exists (b :: data).
  - now rewrite IH.
Qed.

(** The message of [send] and [receive] for a direction digit. *)
Lemma encode_message (d : N) (packet : pystr) :
  encodable d = true ->
  if forallb encodable packet
  then exists data, Py.encode ([d; SP] ++ packet ++ [0x0d]) = Ok data
  else Py.encode ([d; SP] ++ packet ++ [0x0d]) = Exc UnicodeEncodeError.
Proof.
  intros Hd.
  pose proof (encode_encodable ([d; SP] ++ packet ++ [0x0d])) as H.
  rewrite !forallb_app in H. cbn [forallb] in H.
  rewrite Hd in H. change (encodable SP) with true in H.
  change (encodable 0x0d) with true in H.
  cbn [andb] in H. now rewrite !andb_true_r in H.
Qed.

(** X2: [send] and [receive] either write or fail, never half.  When every
    character of the packet can be encoded, each appends one message to what
    the socket has been given, of three bytes more than the packet has
    characters, and touches nothing else; when some character cannot, each
    raises [UnicodeEncodeError] and leaves the connection as it was. *)
Theorem send_all_or_nothing (packet : pystr) (pl : PacketLogger) :
  (forallb encodable packet = true ->
   exists d1 d0 : list byte,
     Py.encode (lit "1 " ++ packet ++ [DELIM]) = Ok d1
     /\ Py.encode (lit "0 " ++ packet ++ [DELIM]) = Ok d0
     /\ length d1 = (length packet + 3)%nat
     /\ length d0 = (length packet + 3)%nat
     /\ send packet pl
        = Val tt (mkPacketLogger (port pl)
                    (mkSocket (incoming (socket pl)) (recv_calls (socket pl))
                              (sent (socket pl) ++ [d1])))
     /\ receive packet pl
        = Val tt (mkPacketLogger (port pl)
                    (mkSocket (incoming (socket pl)) (recv_calls (socket pl))
                              (sent (socket pl) ++ [d0]))))
  /\ (forallb encodable packet = false ->
      send packet pl = Err UnicodeEncodeError pl
      /\ receive packet pl = Err UnicodeEncodeError pl).
Proof.
  pose proof (encode_message 0x31 packet eq_refl) as H1.
  pose proof (encode_message 0x30 packet eq_refl) as H0.
  split; intros Hp; rewrite Hp in H1, H0.
  - destruct H1 as [d1 H1], H0 as [d0 H0]. exists d1, d0.
    change (lit "1 ") with [0x31; SP]. change (lit "0 ") with [0x30; SP].
    change [DELIM] with [0x0d].
    repeat split; try assumption.
    + rewrite (encode_length _ _ H1), !length_app. simpl. lia.
    + rewrite (encode_length _ _ H0), !length_app. simpl. lia.
    + unfold send, bind. change (lit "1 ") with [0x31; SP]. now rewrite H1.
    + unfold receive, bind. change (lit "0 ") with [0x30; SP]. now rewrite H0.
  - split.
    + unfold send, bind. change (lit "1 ") with [0x31; SP]. now rewrite H1.
    + unfold receive, bind. change (lit "0 ") with [0x30; SP]. now rewrite H0.
Qed.

Lemma send_all_or_nothing_witness :
  send (lit "say " ++ [0x100]) (logger_on [])
  = Err UnicodeEncodeError (logger_on [])
  /\ exists d1 d0 : list byte,
       Py.encode (lit "1 " ++ lit "say hello" ++ [DELIM]) = Ok d1
       /\ Py.encode (lit "0 " ++ lit "say hello" ++ [DELIM]) = Ok d0
       /\ length d1 = (length (lit "say hello") + 3)%nat
       /\ length d0 = (length (lit "say hello") + 3)%nat
       /\ send (lit "say hello") (logger_on [])
          = Val tt (mkPacketLogger PORT (mkSocket [] 0 ([] ++ [d1])))
       /\ receive (lit "say hello") (logger_on [])
          = Val tt (mkPacketLogger PORT (mkSocket [] 0 ([] ++ [d0]))).
Proof.
  split.
  - apply (proj2 (send_all_or_nothing (lit "say " ++ [0x100]) (logger_on []))).
    reflexivity.
  - apply (proj1 (send_all_or_nothing (lit "say hello") (logger_on []))).
    reflexivity.
Defined.

(** What one [read] does to the connection. *)
Lemma read_effect (pl : PacketLogger) :
  match read pl with
  | Val s pl' =>
      (length s <= BUFFER_SIZE)%nat
      /\ port pl' = port pl
      /\ sent (socket pl') = sent (socket pl)
      /\ recv_calls (socket pl') = S (recv_calls (socket pl))
  | Err e pl' =>
      (e = OSError \/ e = UnicodeDecodeError)
      /\ port pl' = port pl
      /\ sent (socket pl') = sent (socket pl)
      /\ recv_calls (socket pl') = S (recv_calls (socket pl))
  | Diverges => False
  end.
Proof.
  assert (Hdec : forall data,
             (length data <= BUFFER_SIZE)%nat ->
             match Py.decode data with
             | Ok s => (length s <= BUFFER_SIZE)%nat
             | Exc e => e = OSError \/ e = UnicodeDecodeError
             end).
  { intros data Hlen. destruct (Py.decode data) as [s|e] eqn:Hd.
    - apply encode_decode, encode_length in Hd. now rewrite <- Hd.
    - apply decode_error in Hd. now right. }
  unfold read, bind, on_socket, zoom, recv.
  destruct (incoming (socket pl)) as [|[data|] evs].
  - cbn [Py.decode of_res ret length socket port sent recv_calls].
    repeat split. apply Nat.le_0_l.
  - destruct (length data <=? BUFFER_SIZE)%nat eqn:Hlen.
    + apply Nat.leb_le in Hlen. specialize (Hdec data Hlen).
      destruct (Py.decode data); cbn [of_res ret raise socket port sent recv_calls];
        repeat split; exact Hdec.
    + specialize (Hdec (firstn BUFFER_SIZE data) (firstn_le_length _ _)).
      destruct (Py.decode (firstn BUFFER_SIZE data));
        cbn [of_res ret raise socket port sent recv_calls];
        repeat split; exact Hdec.
  - cbn [socket port sent recv_calls]. repeat split. now left.
Qed.

(** X3: a [read] is one call of [recv]: it returns at most [BUFFER_SIZE]
    characters, or raises [OSError] or [UnicodeDecodeError]; either way the
    call is counted once, and the port and the bytes sent stay as they
    were. *)
Theorem read_one_recv (pl : PacketLogger) :
  match read pl with
  | Val s pl' =>
      (length s <= BUFFER_SIZE)%nat
      /\ port pl' = port pl
      /\ sent (socket pl') = sent (socket pl)
      /\ recv_calls (socket pl') = S (recv_calls (socket pl))
  | Err e pl' =>
      (e = OSError \/ e = UnicodeDecodeError)
      /\ port pl' = port pl
      /\ sent (socket pl') = sent (socket pl)
      /\ recv_calls (socket pl') = S (recv_calls (socket pl))
  | Diverges => False
  end.
Proof. exact (read_effect pl). Qed.

(** ** [strip] *)

Lemma drop_while_all p (s : pystr) :
  forallb p s = true -> Py.drop_while p s = [].
Proof.
  induction s as [|c s IH]; simpl; [reflexivity|].
  intros H. apply andb_true_iff in H as [-> Hs]. now apply IH.
Qed.

Lemma drop_while_head p (s r : pystr) (c : N) :
  Py.drop_while p s = c :: r -> p c = false.
Proof.
  induction s as [|c' s IH]; simpl; [discriminate|].
  destruct (p c') eqn:Hc; [exact IH|]. now intros [= <- _].
Qed.

Lemma forallb_rev {A} (p : A -> bool) (l : list A) :
  forallb p (rev l) = forallb p l.
Proof.
  induction l as [|a l IH]; simpl; [reflexivity|].
  rewrite forallb_app, IH. simpl. rewrite andb_true_r. apply andb_comm.
Qed.

Lemma lstrip_app_space (ws s : pystr) :
  forallb Py.isspace ws = true -> Py.lstrip (ws ++ s) = Py.lstrip s.
Proof.
  intros H. unfold Py.lstrip. now rewrite drop_while_app, drop_while_all.
Qed.

Lemma rstrip_app_space (s ws : pystr) :
  forallb Py.isspace ws = true -> Py.rstrip (s ++ ws) = Py.rstrip s.
Proof.
  intros H. unfold Py.rstrip.
  rewrite rev_app_distr, drop_while_app, drop_while_all; [reflexivity|].
  now rewrite forallb_rev.
Qed.

Lemma strip_app_space (ws s ws' : pystr) :
  forallb Py.isspace ws = true ->
  forallb Py.isspace ws' = true ->
  Py.strip (ws ++ s ++ ws') = Py.strip s.
Proof.
  intros H H'. unfold Py.strip. rewrite (lstrip_app_space _ _ H).
  unfold Py.lstrip at 1. rewrite drop_while_app. fold (Py.lstrip s).
  destruct (Py.lstrip s) as [|c r].
  - now rewrite drop_while_all.
  - now apply rstrip_app_space.
Qed.

(** A text is its own [rstrip] exactly when it does not end in
    whitespace. *)
Lemma rstrip_id_iff (s : pystr) :
  Py.rstrip s = s
  <-> match rev s with
      | [] => True
      | c :: _ => Py.isspace c = false
      end.
Proof.
  unfold Py.rstrip. split.
  - intros H. apply (f_equal (@rev N)) in H. rewrite rev_involutive in H.
    destruct (rev s) as [|c r]; [exact I|]. now apply drop_while_head in H.
  - intros H. rewrite <- (rev_involutive s) at 2. f_equal.
    destruct (rev s) as [|c r]; [reflexivity|]. simpl. now rewrite H.
Qed.

Lemma rstrip_strip (s : pystr) : Py.rstrip (Py.strip s) = Py.strip s.
Proof.
  apply rstrip_id_iff. unfold Py.strip, Py.rstrip. rewrite rev_involutive.
  destruct (Py.drop_while Py.isspace (rev (Py.lstrip s))) as [|c r] eqn:E;
    [exact I|]. now apply drop_while_head in E.
Qed.

(** The end of a text that does not end in whitespace. *)
Lemma rstrip_suffix (a b : pystr) :
  Py.rstrip (a ++ b) = a ++ b -> b <> [] -> Py.rstrip b = b.
Proof.
  intros H Hb. apply rstrip_id_iff in H. apply rstrip_id_iff.
  rewrite rev_app_distr in H.
  destruct (rev b) as [|c r] eqn:E; [exact I|exact H].
Qed.

(** The trimmed form of a line that begins with a direction digit and a
    space. *)
Lemma strip_tagged (d : N) (P : pystr) :
  Py.isspace d = false ->
  Py.strip (d :: SP :: P)
  = match Py.rstrip P with
    | [] => [d]
    | c :: s => d :: SP :: c :: s
    end.
Proof.
  intros Hd. unfold Py.strip, Py.lstrip, Py.rstrip.
  cbn [Py.drop_while]. rewrite Hd.
  change (rev (d :: SP :: P)) with ((rev P ++ [SP]) ++ [d]).
  rewrite <- app_assoc, drop_while_app.
  destruct (Py.drop_while Py.isspace (rev P)) as [|c s] eqn:E.
  - cbn [Py.drop_while app]. change (Py.isspace SP) with true. cbn iota.
    now rewrite Hd.
  - rewrite rev_app_distr.
    destruct (rev (c :: s)) as [|c' s'] eqn:E'; [|reflexivity].
    apply (f_equal (@length N)) in E'. rewrite length_rev in E'.
    discriminate E'.
Qed.

(** ** Further properties of [Packet.from_string] *)

(** X4: the only exception of [from_string] is [ValueError]. *)
Theorem from_string_only_value_error (lim : nat) (line : pystr) (e : exn) :
  from_string lim line = Exc e -> e = ValueError.
Proof.
  unfold from_string.
  pose proof (split_length SP 2 (Py.strip line)) as Hlen.
  destruct (Py.split SP 2 (Py.strip line)) as [|p0 [|p1 [|p2 [|p3 rest]]]];
    cbn [length] in *; try lia; cbn [Nat.ltb Nat.leb]; try discriminate.
  destruct (Py.int lim p0) as [n|]; [|now intros [= <-]].
  unfold PacketType_call.
  destruct (n =? PacketType_value SEND)%Z; [discriminate|].
  destruct (n =? PacketType_value RECEIVE)%Z; [discriminate|].
  now intros [= <-].
Qed.

Lemma from_string_only_value_error_witness :
  from_string 4300 (lit "7 mv 1 2") = Exc ValueError
  /\ ValueError = ValueError.
Proof.
  split; [reflexivity|].
  apply (from_string_only_value_error 4300 (lit "7 mv 1 2") ValueError).
  reflexivity.
Defined.

(** X5: whitespace around a line does not count: the line parses as it
    does without it, and a line of whitespace only, the empty line among
    them, gives [None]. *)
Theorem from_string_outer_whitespace (lim : nat) (ws line ws' : pystr) :
  forallb Py.isspace ws = true ->
  forallb Py.isspace ws' = true ->
  from_string lim (ws ++ line ++ ws') = from_string lim line
  /\ from_string lim (ws ++ ws') = Ok None.
Proof.
  intros H H'. split.
  - unfold from_string. now rewrite (strip_app_space _ _ _ H H').
  - unfold from_string.
    rewrite <- (app_nil_l ws'), (strip_app_space ws [] ws' H H').
    reflexivity.
Qed.

Lemma from_string_outer_whitespace_witness :
  from_string 4300 ([0x09; 0xa0] ++ lit "0 mv 1 2" ++ [0x0a; 0x20])
  = from_string 4300 (lit "0 mv 1 2")
  /\ from_string 4300 ([0x09; 0xa0] ++ [0x0a; 0x20]) = Ok None.
Proof.
  apply (from_string_outer_whitespace 4300 [0x09; 0xa0] (lit "0 mv 1 2")
           [0x0a; 0x20]); reflexivity.
Defined.

(** X6: what a parsed packet is made of.  When [from_string] returns a
    packet, the trimmed line is a first part, a space, the header, a space
    and the content; the first part and the header hold no space, the
    content is not empty and does not end in whitespace, and [int] gives
    the first part the value of the packet's type. *)
Theorem from_string_packet_shape (lim : nat) (line : pystr) (p : Packet) :
  from_string lim line = Ok (Some p) ->
  exists t : pystr,
    Py.strip line = t ++ SP :: header p ++ SP :: content p
    /\ Py.contains SP t = false
    /\ Py.contains SP (header p) = false
    /\ content p <> []
    /\ Py.rstrip (content p) = content p
    /\ Py.int lim t = Some (PacketType_value (type p)).
Proof.
  unfold from_string. cbn [Py.split].
  destruct (Py.partition SP (Py.strip line)) as [[t r]|] eqn:E0;
    [|discriminate].
  destruct (Py.partition SP r) as [[h c]|] eqn:E1; [|discriminate].
  cbn [length Nat.ltb Nat.leb].
  destruct (Py.int lim t) as [n|] eqn:Hint; [|discriminate].
  unfold PacketType_call.
  apply partition_some in E0 as [Hline Ht].
  apply partition_some in E1 as [-> Hh].
  assert (Hc : c <> []).
  { intros ->. pose proof (rstrip_strip line) as Hr. rewrite Hline in Hr.
    apply rstrip_id_iff in Hr.
    replace (t ++ SP :: h ++ [SP]) with ((t ++ SP :: h) ++ [SP]) in Hr
      by now rewrite <- app_assoc.
    rewrite rev_app_distr in Hr. discriminate Hr. }
  assert (Hrc : Py.rstrip c = c).
  { apply (rstrip_suffix (t ++ SP :: h ++ [SP]) c); [|exact Hc].
    replace ((t ++ SP :: h ++ [SP]) ++ c) with (t ++ SP :: h ++ SP :: c)
      by (rewrite <- !app_assoc; simpl; now rewrite <- app_assoc).
    rewrite <- Hline. apply rstrip_strip. }
  destruct (n =? PacketType_value SEND)%Z eqn:H1.
  - intros [= <-]. exists t. apply Z.eqb_eq in H1. subst n.
    cbn [header content type]. repeat split; assumption.
  - destruct (n =? PacketType_value RECEIVE)%Z eqn:H0; [|discriminate].
    intros [= <-]. exists t. apply Z.eqb_eq in H0. subst n.
    cbn [header content type]. repeat split; assumption.
Qed.

Lemma from_string_packet_shape_witness :
  exists t : pystr,
    Py.strip (lit " 01 say  hi there ") = t ++ SP :: lit "say" ++ SP :: lit " hi there"
    /\ Py.contains SP t = false
    /\ Py.contains SP (lit "say") = false
    /\ lit " hi there" <> []
    /\ Py.rstrip (lit " hi there") = lit " hi there"
    /\ Py.int 4300 t = Some 1%Z.
Proof.
  apply (from_string_packet_shape 4300 (lit " 01 say  hi there ")
           (mkPacket SEND (lit "say") (lit " hi there"))).
  reflexivity.
Defined.

(** ** [receive] and the peer's reader *)

(** X7: what [receive] writes comes back as a [RECEIVE] packet.  For a
    packet without carriage return whose message the codec encodes to
    [data], [receive] hands [data] to the transport, whatever its length; a
    reader with an empty buffer whose read gets [data] as one chunk, which
    takes [data] to be at most [BUFFER_SIZE] bytes, yields [0 ] followed by
    the packet; and [from_string] of that line gives the [RECEIVE] packet of
    the text before and after the first space of the packet without its
    trailing whitespace, or [None] when there is no such space. *)
Theorem receive_round_trip (fuel lim : nat) (P : pystr) (data : list byte) :
  Py.contains DELIM P = false ->
  Py.encode (lit "0 " ++ P ++ [DELIM]) = Ok data ->
  (forall pl : PacketLogger,
     receive P pl
     = Val tt (mkPacketLogger (port pl)
                 (mkSocket (incoming (socket pl)) (recv_calls (socket pl))
                           (sent (socket pl) ++ [data]))))
  /\ (forall (peer : PacketLogger) (evs : list recv_event),
        (length data <= BUFFER_SIZE)%nat ->
        incoming (socket peer) = Segment data :: evs ->
        next fuel (iter peer)
        = Val (lit "0 " ++ P)
              (mkPacketIterator
                 (mkPacketLogger (port peer)
                    (mkSocket evs (S (recv_calls (socket peer)))
                              (sent (socket peer))))
                 []))
  /\ (forall h c : pystr,
        Py.rstrip P = h ++ SP :: c ->
        Py.contains SP h = false ->
        from_string lim (lit "0 " ++ P) = Ok (Some (mkPacket RECEIVE h c)))
  /\ (Py.contains SP (Py.rstrip P) = false ->
      from_string lim (lit "0 " ++ P) = Ok None).
Proof.
  intros HP Henc. split; [|split; [|split]].
  - intros pl. unfold receive, bind. change [0x0d] with [DELIM].
    rewrite Henc. reflexivity.
  - intros peer evs Hlen Hin.
    replace (lit "0 " ++ P ++ [DELIM]) with ((lit "0 " ++ P) ++ DELIM :: [])
      in Henc by now rewrite <- app_assoc.
    apply next_first_chunk.
    + unfold read, bind, on_socket, zoom, recv. rewrite Hin.
      apply Nat.leb_le in Hlen. rewrite Hlen.
      now rewrite (decode_encode _ _ Henc).
    + rewrite contains_app, HP. reflexivity.
  - intros h c Hr Hh.
    rewrite (from_string_parts lim _ (lit "0") h c);
      [reflexivity| |reflexivity|exact Hh].
    change (lit "0 " ++ P) with (0x30 :: SP :: P).
    rewrite (strip_tagged 0x30 P eq_refl). rewrite Hr. now destruct h.
  - intros Hr. apply from_string_few.
    change (lit "0 " ++ P) with (0x30 :: SP :: P).
    rewrite (strip_tagged 0x30 P eq_refl).
    destruct (Py.rstrip P) as [|c s] eqn:E; [vm_compute; lia|].
    change (lit "0 " ++ c :: s) with (0x30 :: 0x20 :: c :: s).
    rewrite count_occ_cons_neq by discriminate.
    rewrite count_occ_cons_eq by reflexivity.
    rewrite (contains_count _ _ Hr). lia.
Qed.

Lemma receive_round_trip_witness :
  (forall pl : PacketLogger,
     receive (lit "say 1 312 5 user message") pl
     = Val tt (mkPacketLogger (port pl)
                 (mkSocket (incoming (socket pl)) (recv_calls (socket pl))
                           (sent (socket pl) ++ [blit "0 say 1 312 5 user message" ++ [CR]]))))
  /\ next 0 (iter (logger_on [Segment (blit "0 say 1 312 5 user message" ++ [CR])]))
     = Val (lit "0 " ++ lit "say 1 312 5 user message")
           (mkPacketIterator (mkPacketLogger PORT (mkSocket [] 1 [])) [])
  /\ from_string 4300 (lit "0 " ++ lit "say 1 312 5 user message")
     = Ok (Some (mkPacket RECEIVE (lit "say") (lit "1 312 5 user message")))
  /\ from_string 4300 (lit "0 " ++ lit "walk") = Ok None.
Proof.
  pose proof (receive_round_trip 0 4300 (lit "say 1 312 5 user message")
                (blit "0 say 1 312 5 user message" ++ [CR]) eq_refl eq_refl)
    as (Hsend & Hnext & Hparse & _).
  pose proof (receive_round_trip 0 4300 (lit "walk") (blit "0 walk" ++ [CR])
                eq_refl eq_refl) as (_ & _ & _ & Hnone).
  split; [exact Hsend|]. split; [|split].
  - apply (Hnext (logger_on [Segment (blit "0 say 1 312 5 user message" ++ [CR])]) []);
      [apply Nat.leb_le; reflexivity|reflexivity].
  - apply (Hparse (lit "say") (lit "1 312 5 user message")); reflexivity.
  - apply Hnone. reflexivity.
Defined.

(** ** Iteration over complete lines *)

Lemma frame_cons (line : pystr) (lines : list pystr) (rest : pystr) :
  frame (line :: lines) ++ rest = line ++ DELIM :: frame lines ++ rest.
Proof. unfold frame. cbn [flat_map]. now rewrite <- !app_assoc. Qed.

(** Lines that wait in the buffer are handed out in order, and the loop
    goes on from what is left. *)
Lemma for_each_frame (calls fuel : nat) (pl : PacketLogger)
      (lines : list pystr) (rest : pystr) :
  Forall (fun line => Py.contains DELIM line = false) lines ->
  for_each (length lines + calls) fuel (mkPacketIterator pl (frame lines ++ rest))
  = let '(more, e) := for_each calls fuel (mkPacketIterator pl rest) in
    (lines ++ more, e).
Proof.
  induction 1 as [|line lines Hline Hlines IH].
  - cbn. now destruct (for_each calls fuel (mkPacketIterator pl rest)).
  - cbn [length Nat.add for_each]. rewrite frame_cons.
    rewrite (next_buffered fuel pl line _ Hline), IH.
    now destruct (for_each calls fuel (mkPacketIterator pl rest)).
Qed.

(** X8: complete lines that are in the buffer are yielded in order, one
    for each call, without a read: the loop over as many calls as there are
    lines, and [calls] more, gives these lines and then what the loop gives
    from the same connection with the rest of the buffer. *)
Theorem for_each_buffered (calls fuel : nat) (pl : PacketLogger)
        (lines : list pystr) (rest : pystr) :
  Forall (fun line => Py.contains DELIM line = false) lines ->
  for_each (length lines + calls) fuel (mkPacketIterator pl (frame lines ++ rest))
  = let '(more, e) := for_each calls fuel (mkPacketIterator pl rest) in
    (lines ++ more, e).
Proof. apply for_each_frame. Qed.

Lemma for_each_buffered_witness :
  for_each (length [lit "0 mv 1"; []; lit "1 walk 2"] + 1) 3
           (mkPacketIterator (logger_on [Fault])
              (frame [lit "0 mv 1"; []; lit "1 walk 2"] ++ []))
  = let '(more, e) :=
      for_each 1 3 (mkPacketIterator (logger_on [Fault]) []) in
    ([lit "0 mv 1"; []; lit "1 walk 2"] ++ more, e).
Proof.
  apply (for_each_buffered 1 3 (logger_on [Fault])
           [lit "0 mv 1"; []; lit "1 walk 2"] []).
  repeat constructor.
Defined.

(** A chunk of complete lines read into an empty buffer. *)
Lemma for_each_chunk (calls fuel : nat) (pl pl' : PacketLogger)
      (lines : list pystr) (rest : pystr) :
  lines <> [] ->
  Forall (fun line => Py.contains DELIM line = false) lines ->
  read pl = Val (frame lines ++ rest) pl' ->
  for_each (length lines + calls) fuel (mkPacketIterator pl [])
  = let '(more, e) := for_each calls fuel (mkPacketIterator pl' rest) in
    (lines ++ more, e).
Proof.
  intros Hne Hlines Hread. destruct lines as [|line lines]; [congruence|].
  inversion Hlines as [|? ? Hline Hrest]; subst.
  rewrite frame_cons in Hread.
  cbn [length Nat.add for_each].
  rewrite (next_first_chunk fuel pl pl' line _ Hread Hline).
  rewrite (for_each_frame calls fuel pl' lines rest Hrest).
  now destruct (for_each calls fuel (mkPacketIterator pl' rest)).
Qed.

Lemma read_segment (pl : PacketLogger) (data : list byte) (s : pystr)
      (evs : list recv_event) :
  incoming (socket pl) = Segment data :: evs ->
  (length data <= BUFFER_SIZE)%nat ->
  Py.decode data = Ok s ->
  read pl
  = Val s (mkPacketLogger (port pl)
             (mkSocket evs (S (recv_calls (socket pl))) (sent (socket pl)))).
Proof.
  intros Hin Hlen Hdec. unfold read, bind, on_socket, zoom, recv.
  apply Nat.leb_le in Hlen. now rewrite Hin, Hlen, Hdec.
Qed.

Lemma for_each_chunks (calls fuel : nat)
      (chunks : list (list byte * list pystr)) (evs : list recv_event) :
  Forall aligned_chunk chunks ->
  forall pl : PacketLogger,
    incoming (socket pl) = map (fun chunk => Segment (fst chunk)) chunks ++ evs ->
    for_each (length (concat (map snd chunks)) + calls) fuel (iter pl)
    = let '(more, e) :=
        for_each calls fuel
          (iter (mkPacketLogger (port pl)
                   (mkSocket evs (length chunks + recv_calls (socket pl))
                             (sent (socket pl))))) in
      (concat (map snd chunks) ++ more, e).
Proof.
  induction 1 as [|[data lines] chunks (Hne & Hlines & Hlen & Hdec) _ IH];
    intros pl Hin.
  - cbn [map concat length Nat.add app] in *.
    replace (mkPacketLogger (port pl)
               (mkSocket evs (recv_calls (socket pl)) (sent (socket pl))))
      with pl by (destruct pl as [p [i r s]]; cbn in *; now subst).
    now destruct (for_each calls fuel (iter pl)).
  - cbn [fst snd] in *. cbn [map concat] in *.
    rewrite length_app, <- Nat.add_assoc.
    pose proof (read_segment pl data (frame lines)
                  (map (fun chunk => Segment (fst chunk)) chunks ++ evs)
                  Hin Hlen Hdec) as Hread.
    rewrite <- (app_nil_r (frame lines)) in Hread.
    specialize (IH (mkPacketLogger (port pl)
                      (mkSocket (map (fun chunk => Segment (fst chunk)) chunks ++ evs)
                                (S (recv_calls (socket pl))) (sent (socket pl))))
                   eq_refl).
    cbn [port socket sent recv_calls length] in IH.
    rewrite Nat.add_succ_r in IH.
    unfold iter in *.
    rewrite (for_each_chunk _ fuel pl _ lines [] Hne Hlines Hread), IH.
    cbn [length Nat.add].
    match goal with
    | |- context [for_each calls fuel ?it] => destruct (for_each calls fuel it)
    end.
    now rewrite app_assoc.
Qed.

(** X9: when every chunk the transport delivers is made of complete lines,
    the loop yields the lines of all the chunks in order, with one read for
    each chunk, and goes on from the rest of the script with an empty buffer;
    if what comes next is a failure of [recv], the loop ends there as a
    [for] loop ends. *)
Theorem for_each_aligned (calls fuel : nat)
        (chunks : list (list byte * list pystr)) (evs : list recv_event)
        (pl : PacketLogger) :
  Forall aligned_chunk chunks ->
  incoming (socket pl) = map (fun chunk => Segment (fst chunk)) chunks ++ evs ->
  for_each (length (concat (map snd chunks)) + calls) fuel (iter pl)
  = (let '(more, e) :=
       for_each calls fuel
         (iter (mkPacketLogger (port pl)
                  (mkSocket evs (length chunks + recv_calls (socket pl))
                            (sent (socket pl))))) in
     (concat (map snd chunks) ++ more, e))
  /\ (forall evs' : list recv_event,
        evs = Fault :: evs' ->
        (0 < calls)%nat ->
        for_each (length (concat (map snd chunks)) + calls) fuel (iter pl)
        = (concat (map snd chunks), Exhausted)).
Proof.
  intros Hchunks Hin.
  pose proof (for_each_chunks calls fuel chunks evs Hchunks pl Hin) as H.
  split; [exact H|].
  intros evs' -> Hcalls. rewrite H.
  destruct calls as [|calls]; [lia|].
  cbn. now rewrite app_nil_r.
Qed.

Lemma for_each_aligned_witness :
  for_each (length (concat (map snd
              [(blit "0 mv 1" ++ [CR] ++ blit "1 walk 2" ++ [CR],
                [lit "0 mv 1"; lit "1 walk 2"]);
               ([CR], [[]])])) + 1) 0
           (iter (logger_on
              [Segment (blit "0 mv 1" ++ [CR] ++ blit "1 walk 2" ++ [CR]);
               Segment [CR]; Fault]))
  = ([lit "0 mv 1"; lit "1 walk 2"; []], Exhausted).
Proof.
  refine (proj2 (for_each_aligned 1 0
            [(blit "0 mv 1" ++ [CR] ++ blit "1 walk 2" ++ [CR],
              [lit "0 mv 1"; lit "1 walk 2"]);
             ([CR], [[]])]
            [Fault]
            (logger_on
               [Segment (blit "0 mv 1" ++ [CR] ++ blit "1 walk 2" ++ [CR]);
                Segment [CR]; Fault]) _ eq_refl) [] eq_refl _).
  - constructor; [|constructor; [|constructor]];
      unfold aligned_chunk; cbn [fst snd];
      (split; [discriminate|];
       split; [repeat (constructor; [reflexivity|]); constructor|];
       split; [apply Nat.leb_le; reflexivity|reflexivity]).
  - lia.
Defined.

(** ** What [__next__] does to the connection *)

Lemma only_read_refl (pl : PacketLogger) : only_read pl pl.
Proof. unfold only_read. auto. Qed.

Lemma only_read_trans (a b c : PacketLogger) :
  only_read a b -> only_read b c -> only_read a c.
Proof.
  unfold only_read. intros (Hp & Hs & Hr) (Hp' & Hs' & Hr').
  repeat split; [congruence|congruence|lia].
Qed.

Lemma read_only_read (pl : PacketLogger) :
  match read pl with
  | Val _ pl' | Err _ pl' =>
      only_read pl pl'
      /\ recv_calls (socket pl') = S (recv_calls (socket pl))
  | Diverges => False
  end.
Proof.
  pose proof (read_effect pl) as H. unfold only_read.
  destruct (read pl) as [s pl'|e pl'|]; [| |exact H];
    destruct H as (_ & Hp & Hs & Hr); rewrite Hr; repeat split; auto.
Qed.

Lemma read_data_effect (self : PacketIterator) :
  match read_data self with
  | Val _ s =>
      buffer s = buffer self
      /\ only_read (packet_logger self) (packet_logger s)
      /\ recv_calls (socket (packet_logger s))
         = S (recv_calls (socket (packet_logger self)))
  | Err e s =>
      e = UnicodeDecodeError
      /\ only_read (packet_logger self) (packet_logger s)
  | Diverges => False
  end.
Proof.
  pose proof (read_only_read (packet_logger self)) as H.
  unfold read_data, try_except, bind, on_logger, zoom.
  destruct (read (packet_logger self)) as [s pl'|e pl'|] eqn:E; [| |exact H].
  - cbn. tauto.
  - destruct (read_error _ _ _ E) as [-> | ->]; cbn; tauto.
Qed.

Lemma while_no_delim_effect (fuel : nat) (b : pystr) (self : PacketIterator) :
  match while_no_delim fuel b self with
  | Val _ s => only_read (packet_logger self) (packet_logger s)
  | Err e s =>
      e <> StopIteration
      /\ only_read (packet_logger self) (packet_logger s)
  | Diverges => True
  end.
Proof.
  revert b self. induction fuel as [|fuel IH]; intros b self; simpl;
    destruct (Py.contains DELIM b); try apply only_read_refl; try exact I.
  pose proof (read_only_read (packet_logger self)) as H.
  unfold bind, on_logger, zoom.
  destruct (read (packet_logger self)) as [s pl'|e pl'|] eqn:E; [| |exact I].
  - specialize (IH (b ++ s) (mkPacketIterator pl' (buffer self))).
    cbn [packet_logger] in IH. destruct H as [H _].
    destruct (while_no_delim fuel (b ++ s) (mkPacketIterator pl' (buffer self)));
      [|destruct IH as [Hne IH]; split; [exact Hne|]|exact I];
      eapply only_read_trans; eassumption.
  - cbn [packet_logger]. split; [|apply H].
    destruct (read_error _ _ _ E) as [-> | ->]; discriminate.
Qed.

Lemma fill_effect (fuel : nat) (self : PacketIterator) :
  match fill fuel self with
  | Val _ s => only_read (packet_logger self) (packet_logger s)
  | Err e s =>
      only_read (packet_logger self) (packet_logger s)
      /\ (e = StopIteration ->
          buffer s = buffer self
          /\ (recv_calls (socket (packet_logger self))
              < recv_calls (socket (packet_logger s))
              <= 2 + recv_calls (socket (packet_logger self)))%nat)
  | Diverges => True
  end.
Proof.
  assert (Hmore : forall b s,
             match ((more <- read_data ;;
                     more <- check_none more StopIteration ;;
                     self_buffer <- get_buffer ;;
                     set_buffer (self_buffer ++ more)) ;;;
                    while_no_delim fuel b) s with
             | Val _ s' => only_read (packet_logger s) (packet_logger s')
             | Err e s' =>
                 only_read (packet_logger s) (packet_logger s')
                 /\ (e = StopIteration ->
                     buffer s' = buffer s
                     /\ recv_calls (socket (packet_logger s'))
                        = S (recv_calls (socket (packet_logger s))))
             | Diverges => True
             end).
  { intros b s. unfold bind.
    pose proof (read_data_effect s) as H.
    destruct (read_data s) as [[more|] s1|e1 s1|]; run.
    - destruct H as (Hb & Ho & Hr).
      pose proof (while_no_delim_effect fuel b
                    (mkPacketIterator (packet_logger s1) (buffer s1 ++ more)))
        as Hw.
      cbn [packet_logger] in Hw.
      destruct (while_no_delim fuel b
                  (mkPacketIterator (packet_logger s1) (buffer s1 ++ more)));
        [|destruct Hw as [Hne Hw]; split; [|intros ->; congruence]|exact I];
        eapply only_read_trans; eassumption.
    - tauto.
    - destruct H as [-> H]. split; [exact H|discriminate].
    - exact I. }
  assert (Hrest : forall (o : option pystr) s,
             match (buffer <- check_none o StopIteration ;;
                    (if negb (Py.contains DELIM buffer) then
                       more <- read_data ;;
                       more <- check_none more StopIteration ;;
                       self_buffer <- get_buffer ;;
                       set_buffer (self_buffer ++ more)
                     else ret tt) ;;;
                    while_no_delim fuel buffer) s with
             | Val _ s' => only_read (packet_logger s) (packet_logger s')
             | Err e s' =>
                 only_read (packet_logger s) (packet_logger s')
                 /\ (e = StopIteration ->
                     buffer s' = buffer s
                     /\ recv_calls (socket (packet_logger s'))
                        = match o with
                          | Some _ => S (recv_calls (socket (packet_logger s)))
                          | None => recv_calls (socket (packet_logger s))
                          end)
             | Diverges => True
             end).
  { intros [b|] s; unfold bind at 1; cbn [check_none]; cbv [ret raise].
    - destruct (Py.contains DELIM b); cbn [negb]; [|apply Hmore].
      cbv [bind]. pose proof (while_no_delim_effect fuel b s) as Hw.
      destruct (while_no_delim fuel b s); [exact Hw| |exact I].
      destruct Hw as [Hne Hw]. split; [exact Hw|intros ->; congruence].
    - split; [apply only_read_refl|auto]. }
  unfold fill. unfold bind at 1. cbv [get_buffer]. unfold bind at 1.
  destruct (truthy (buffer self)) eqn:Ht.
  - cbv [ret]. specialize (Hrest (Some (buffer self)) self).
    match goal with
    | H : match ?m with _ => _ end |- match ?m' with _ => _ end =>
        change m' with m; destruct m as [w s|e s|]
    end; [exact Hrest| |exact I].
    destruct Hrest as [Ho Hs]. split; [exact Ho|].
    intros He. destruct (Hs He) as [Hb Hr]. split; [exact Hb|lia].
  - pose proof (read_data_effect self) as H.
    destruct (read_data self) as [o s1|e1 s1|]; [| |exact I].
    + destruct H as (Hb & Ho & Hr). specialize (Hrest o s1).
      match goal with
      | H : match ?m with _ => _ end |- match ?m' with _ => _ end =>
          change m' with m; destruct m as [w s|e s|]
      end; [| |exact I].
      * eapply only_read_trans; eassumption.
      * destruct Hrest as [Ho' Hs]. split;
          [eapply only_read_trans; eassumption|].
        intros He. destruct (Hs He) as [Hb' Hr'].
        split; [congruence|]. destruct o; lia.
    + destruct H as [-> H]. split; [exact H|discriminate].
Qed.

(** X10: [StopIteration] leaves the buffer alone.  When [__next__] ends
    the iteration, the buffer is what it was before the call, partial line
    included, and the call has made one or two reads. *)
Theorem next_stop_keeps_buffer (fuel : nat) (self self' : PacketIterator) :
  next fuel self = Err StopIteration self' ->
  buffer self' = buffer self
  /\ (recv_calls (socket (packet_logger self))
      < recv_calls (socket (packet_logger self'))
      <= 2 + recv_calls (socket (packet_logger self)))%nat.
Proof.
  unfold next, bind. pose proof (fill_effect fuel self) as H.
  pose proof (fill_result fuel self) as Hc.
  destruct (fill fuel self) as [w s|e s|]; [| |discriminate].
  - destruct (contains_partition _ _ Hc) as (l & r & Hp).
    cbn [Py.split]. rewrite Hp. discriminate.
  - intros [= -> ->]. now apply H.
Qed.

Lemma next_stop_keeps_buffer_witness :
  buffer (mkPacketIterator (mkPacketLogger PORT (mkSocket [] 1 [])) (lit "tail"))
  = buffer (mkPacketIterator (logger_on [Fault]) (lit "tail"))
  /\ (recv_calls (socket (packet_logger
                            (mkPacketIterator (logger_on [Fault]) (lit "tail"))))
      < recv_calls (socket (mkPacketLogger PORT (mkSocket [] 1 [])))
      <= 2 + recv_calls (socket (packet_logger
                            (mkPacketIterator (logger_on [Fault]) (lit "tail")))))%nat.
Proof.
  apply (next_stop_keeps_buffer 5
           (mkPacketIterator (logger_on [Fault]) (lit "tail"))
           (mkPacketIterator (mkPacketLogger PORT (mkSocket [] 1 [])) (lit "tail"))).
  reflexivity.
Defined.

(** X11: [__next__] only reads.  Whether it yields a line or raises, the
    connection it leaves has the port and the bytes sent it had before, and
    no fewer calls of [recv]. *)
Theorem next_only_reads (fuel : nat) (self : PacketIterator) :
  match next fuel self with
  | Val _ self' | Err _ self' =>
      only_read (packet_logger self) (packet_logger self')
  | Diverges => True
  end.
Proof.
  unfold next, bind. pose proof (fill_effect fuel self) as H.
  destruct (fill fuel self) as [w s|e s|]; [|apply H|exact I].
  cbn [Py.split]. destruct (Py.partition DELIM w) as [[l r]|]; run; exact H.
Qed.

(** ** [with] blocks and the module-level functions *)

Lemma enter_returns (ident : positive) (self : objref) (w : World) :
  lift (enter ident self) w
  = Returns self (mkWorld (<[ident := self]> (instances w)) (objects w)).
Proof. reflexivity. Qed.

Lemma exit_effect (ident : positive) (self : objref) (w : World) :
  lift (exit ident self) w
  = match instances w !! ident with
    | Some _ => Returns tt (mkWorld (delete ident (instances w)) (objects w))
    | None => Raises (Method KeyError) w
    end.
Proof.
  unfold lift, exit, on_instances, zoom, unset_global.
  destruct (instances w !! ident); [reflexivity|]. now destruct w.
Qed.

Lemma exit_unregisters (ident : positive) (self : objref) (w : World) :
  match lift (exit ident self) w with
  | Returns _ w' | Raises _ w' => instances w' !! ident = None
  | Unfinished => False
  end.
Proof.
  rewrite exit_effect. destruct (instances w !! ident) eqn:E; [|exact E].
  apply lookup_delete_eq.
Qed.

Lemma with_block_regs_none {A} (ident : positive) (self : objref)
      (body : Mod A) (w : World) :
  match with_block ident self body w with
  | Returns _ w' | Raises _ w' => instances w' !! ident = None
  | Unfinished => True
  end.
Proof.
  unfold with_block. rewrite enter_returns.
  destruct (body _) as [a w2|e w2|]; [| |exact I];
    pose proof (exit_unregisters ident self w2) as H;
    destruct (lift (exit ident self) w2); try exact H; exact I.
Qed.

(** X12: however a [with] block ends, by returning or by raising, the
    thread that ran it has no current connection afterwards, whatever the
    body did and whatever the thread had registered before. *)
Theorem with_block_unregisters {A} (ident : positive) (self : objref)
        (body : Mod A) (w : World) :
  match with_block ident self body w with
  | Returns _ w' | Raises _ w' => instances w' !! ident = None
  | Unfinished => True
  end.
Proof. apply with_block_regs_none. Qed.

(** X13: [with] blocks of one thread do not nest.  When the body keeps the
    thread's registration, the inner block removes it on its way out, so the
    outer block, whatever the body returned or raised, ends in the
    [KeyError] of its own [__exit__], and the thread is left without a
    current connection. *)
Theorem nested_with_key_error {A} (ident : positive) (outer inner : objref)
        (body : Mod A) (w : World) :
  (forall w1 : World,
     match body w1 with
     | Returns _ w2 | Raises _ w2 => instances w2 !! ident = instances w1 !! ident
     | Unfinished => False
     end) ->
  exists w' : World,
    with_block ident outer (with_block ident inner body) w
    = Raises (Method KeyError) w'
    /\ instances w' !! ident = None.
Proof.
  intros Hbody. unfold with_block at 1. rewrite enter_returns.
  unfold with_block. rewrite enter_returns.
  match goal with
  | |- context [body ?w1] =>
      specialize (Hbody w1); destruct (body w1) as [a w2|e w2|];
      [| |destruct Hbody]
  end; cbn [instances] in Hbody; rewrite lookup_insert_eq in Hbody;
    rewrite (exit_effect ident inner w2), Hbody;
    rewrite exit_effect; cbn [instances]; rewrite lookup_delete_eq;
    eexists; (split; [reflexivity|]); cbn [instances];
    apply lookup_delete_eq.
Qed.

Lemma nested_with_key_error_witness :
  exists w' : World,
    with_block 1%positive 7%positive
      (with_block 1%positive 8%positive (module_send 1%positive (lit "say hello")))
      (mkWorld ∅ (fun _ => logger_on []))
    = Raises (Method KeyError) w'
    /\ instances w' !! 1%positive = None.
Proof.
  apply (nested_with_key_error 1%positive 7%positive 8%positive
           (module_send 1%positive (lit "say hello"))
           (mkWorld ∅ (fun _ => logger_on []))).
  intros [m objs]. unfold module_send, on_global_instance, on_instances, zoom,
    get_global_instance, lift, on_object. cbn [instances objects].
  destruct (m !! 1%positive) as [o|] eqn:E; [|exact E].
  destruct (send (lit "say hello") (objs o)); exact E.
Defined.

Lemma on_global_instance_registered {A} (ident : positive) (self : objref)
      (m : M PacketLogger A) (w : World) :
  instances w !! ident = Some self ->
  on_global_instance ident m w = lift (on_object self m) w.
Proof.
  intros H. unfold on_global_instance, on_instances, zoom, get_global_instance.
  rewrite H. now destruct w.
Qed.

Lemma on_global_instance_missing {A} (ident : positive)
      (m : M PacketLogger A) (w : World) :
  instances w !! ident = None ->
  on_global_instance ident m w = Raises AttributeError w.
Proof.
  intros H. unfold on_global_instance, on_instances, zoom, get_global_instance.
  rewrite H. now destruct w.
Qed.

Lemma lift_on_object {A} (self : objref) (m : M PacketLogger A) (w : World) :
  lift (on_object self m) w
  = match m (objects w self) with
    | Val a pl =>
        Returns a (mkWorld (instances w) (store self pl (objects w)))
    | Err e pl =>
        Raises (Method e) (mkWorld (instances w) (store self pl (objects w)))
    | Diverges => Unfinished
    end.
Proof.
  unfold lift, on_object, zoom. now destruct (m (objects w self)).
Qed.

(** X14: inside a [with] block the module-level functions act on the
    block's connection.  [with self: send(p); receive(q)] returns or raises
    as [self.send(p); self.receive(q)] does and leaves every object in the
    same state; the registry ends without an entry for the thread, which is
    the registry of before when the thread had none. *)
Theorem with_send_receive (ident : positive) (self : objref) (p q : pystr)
        (w : World) :
  with_block ident self
    (and_then (module_send ident p) (module_receive ident q)) w
  = match (on_object self (send p) ;;; on_object self (receive q)) w with
    | Val _ w' =>
        Returns tt (mkWorld (delete ident (instances w)) (objects w'))
    | Err e w' =>
        Raises (Method e) (mkWorld (delete ident (instances w)) (objects w'))
    | Diverges => Unfinished
    end
  /\ (instances w !! ident = None -> delete ident (instances w) = instances w).
Proof.
  split; [|apply delete_id].
  unfold with_block. rewrite enter_returns.
  unfold and_then, module_send, module_receive.
  rewrite (on_global_instance_registered ident self)
    by (cbn [instances]; apply lookup_insert_eq).
  rewrite lift_on_object. cbn [instances objects].
  unfold bind, on_object, zoom. cbn [instances objects].
  destruct (send p (objects w self)) as [[] pl1|e pl1|]; [| |reflexivity].
  - rewrite (on_global_instance_registered ident self)
      by (cbn [instances]; apply lookup_insert_eq).
    rewrite lift_on_object. cbn [instances objects].
    destruct (receive q (store self pl1 (objects w) self)) as [[] pl2|e pl2|];
      [| |reflexivity];
      rewrite exit_effect; cbn [instances objects];
      rewrite lookup_insert_eq, delete_insert_eq; reflexivity.
  - rewrite exit_effect. cbn [instances objects].
    rewrite lookup_insert_eq, delete_insert_eq. reflexivity.
Qed.

Lemma with_send_receive_witness :
  delete 1%positive (instances (mkWorld ∅ (fun _ => logger_on [])))
  = instances (mkWorld ∅ (fun _ => logger_on [])).
Proof.
  apply (proj2 (with_send_receive 1%positive 7%positive (lit "say hello")
                  (lit "say 1 312 5 user message")
                  (mkWorld ∅ (fun _ => logger_on [])))).
  reflexivity.
Defined.

(** X15: without a current connection the module-level [send] and
    [receive] raise [AttributeError] and change nothing; this is so for a
    thread that never registered, for a thread other than the one that
    registered, and for the thread of a [with] block once the block has
    returned. *)
Theorem module_send_no_instance (ident : positive) (p : pystr) (w : World) :
  (instances w !! ident = None ->
   module_send ident p w = Raises AttributeError w
   /\ module_receive ident p w = Raises AttributeError w)
  /\ (forall (other : positive) (self : objref) (w' : World),
        other <> ident ->
        instances w !! ident = None ->
        lift (enter other self) w = Returns self w' ->
        module_send ident p w' = Raises AttributeError w'
        /\ module_receive ident p w' = Raises AttributeError w')
  /\ (forall (A : Type) (self : objref) (body : Mod A) (a : A) (w' : World),
        with_block ident self body w = Returns a w' ->
        module_send ident p w' = Raises AttributeError w'
        /\ module_receive ident p w' = Raises AttributeError w').
Proof.
  split; [|split].
  - intros H. split; now apply on_global_instance_missing.
  - intros other self w' Hne H. rewrite enter_returns. intros [= <-].
    assert (Hnone : instances (mkWorld (<[other := self]> (instances w))
                                       (objects w)) !! ident = None)
      by (cbn [instances]; now rewrite lookup_insert_ne).
    split; now apply on_global_instance_missing.
  - intros A self body a w' H.
    pose proof (with_block_regs_none ident self body w) as Hn.
    rewrite H in Hn. split; now apply on_global_instance_missing.
Qed.

Lemma module_send_no_instance_witness :
  (module_send 1%positive (lit "say hello") (mkWorld ∅ (fun _ => logger_on []))
   = Raises AttributeError (mkWorld ∅ (fun _ => logger_on []))
   /\ module_receive 1%positive (lit "say hello")
        (mkWorld ∅ (fun _ => logger_on []))
      = Raises AttributeError (mkWorld ∅ (fun _ => logger_on [])))
  /\ (module_send 1%positive (lit "say hello")
        (mkWorld (<[2%positive := 7%positive]> ∅) (fun _ => logger_on []))
      = Raises AttributeError
          (mkWorld (<[2%positive := 7%positive]> ∅) (fun _ => logger_on []))
      /\ module_receive 1%positive (lit "say hello")
           (mkWorld (<[2%positive := 7%positive]> ∅) (fun _ => logger_on []))
         = Raises AttributeError
             (mkWorld (<[2%positive := 7%positive]> ∅) (fun _ => logger_on []))).
Proof.
  pose proof (module_send_no_instance 1%positive (lit "say hello")
                (mkWorld ∅ (fun _ => logger_on []))) as (H1 & H2 & _).
  split.
  - apply H1. apply lookup_empty.
  - apply (H2 2%positive 7%positive
              (mkWorld (<[2%positive := 7%positive]> ∅) (fun _ => logger_on []))).
    + discriminate.
    + apply lookup_empty.
    + reflexivity.
Defined.
